(** * Contact controller of the chat application

    A shallow embedding of [src/controllers/contactController.js]: the
    relationship state machine (friend requests, friendships, blocks), the
    socket notifications it emits, and the friends aggregation.

    The relational tables reached through the ORM are finite maps keyed by
    the primary key; a handler is a function from the request parameters and
    the tables to the new tables, the emitted socket events and the HTTP
    response.  Route parameters are taken after [parseInt], as integers; the
    socket server [req.app.get("socketio")] is there; an awaited store call
    of a writing handler answers, so that a writing handler reaches its
    [catch] block only by dereferencing a user that [findByPk] did not
    find.  [getFriends] takes the store calls that reject as a parameter.

    A string of the model is the UTF-8 text of the JavaScript string.  The
    two string operations of the JavaScript runtime that depend on Unicode,
    [s[0]] and [toUpperCase], are not code of the controller: they are the
    parameters [charAt0] and [toUpperCase] of the class [JsRuntime], of which
    only the behaviour on ASCII is fixed. *)

From stdpp Require Import gmap strings list fin_maps pretty.

Open Scope Z_scope.

(** ** Tables *)

(** Modelled from the spec: the [Contact] model lives in
    [../models/associations], which is not among the sources; its [status]
    column takes the three values the controller writes and tests. *)
Inductive Status := pending | accepted | blocked.

Global Instance Status_eq_dec : EqDecision Status.
Proof. solve_decision. Defined.

(** A row of the [Contact] table, without its primary key [id]: the table
    below is keyed by it. *)
Record Contact := mkContact {
  requesterId : Z;
  addresseeId : Z;
  status : Status
}.

Global Instance Contact_eq_dec : EqDecision Contact.
Proof. solve_decision. Defined.

(** The attributes of a [User] row the controller selects.  A column that is
    NULL, or left out of the [attributes] list of a query, is [None]. *)
Record UserData := mkUser {
  name : option string;
  email : option string;
  img : option string;
  isOnline : option bool;
  userStatus : option string
}.

(** A loaded user: primary key and attributes ([toJSON] of the instance). *)
Definition Profile : Type := Z * UserData.

(** Modelled from the spec: the [UnreadCount] model is not among the sources;
    the columns are those the query of [getFriends] names. *)
Record UnreadCount := mkUnread {
  ucUserId : Z;
  chatType : string;
  chatId : Z;
  count : Z
}.

(** Modelled from the spec: the [Message] model is not among the sources; the
    columns are those the query of [getFriends] names, and [content] stands
    for the others. *)
Record Message := mkMessage {
  senderId : Z;
  receiverId : Z;
  createdAt : Z;
  content : string
}.

Record Db := mkDb {
  contacts : gmap Z Contact;
  users : gmap Z UserData;
  unreadCounts : list UnreadCount;
  messages : list (Z * Message)
}.

Definition setContacts (s : Db) (m : gmap Z Contact) : Db :=
  {| contacts := m; users := users s;
     unreadCounts := unreadCounts s; messages := messages s |}.

(** ** Queries *)

(** [User.findByPk(id, { attributes })]: [withOnline] tells whether the
    attribute list has [isOnline]. *)
Definition selectAttrs (withOnline : bool) (d : UserData) : UserData :=
  {| name := name d; email := email d; img := img d;
     isOnline := if withOnline then isOnline d else None;
     userStatus := userStatus d |}.

Definition findByPk (s : Db) (id : Z) : option Profile :=
  (λ d, (id, d)) <$> users s !! id.

Definition findProfile (withOnline : bool) (s : Db) (id : Z) : option Profile :=
  (λ d, (id, selectAttrs withOnline d)) <$> users s !! id.

(** [Contact.findOne({ where })]: the first row satisfying the condition, in
    the order the table is scanned. *)
Definition findOne (P : Z * Contact → Prop) `{∀ r, Decision (P r)}
    (m : gmap Z Contact) : option (Z * Contact) :=
  head (filter P (map_to_list m)).

(** [Contact.findAll({ where })]. *)
Definition findAll (P : Z * Contact → Prop) `{∀ r, Decision (P r)}
    (m : gmap Z Contact) : list (Z * Contact) :=
  filter P (map_to_list m).

(** The [Op.or] condition on the two orders of a pair. *)
Definition pairOf (a b : Z) (c : Contact) : Prop :=
  (requesterId c = a ∧ addresseeId c = b) ∨
  (requesterId c = b ∧ addresseeId c = a).

Global Instance pairOf_dec a b c : Decision (pairOf a b c).
Proof. unfold pairOf. apply _. Defined.

(** [Contact.create] assigns a primary key no row of the table has. *)
Definition newId (m : gmap Z Contact) : Z := fresh (dom m).

(** ** Socket events *)

Inductive Payload :=
| PRequest (sender : Profile) (contactId : Z)
    (* { ...sender.toJSON(), Contact: { id } } *)
| PNewFriend (message : string) (newFriend : Profile)
    (* { message, newFriend: { ...user.toJSON(), type: "individual",
         unreadCount: 0, lastMessage: null, messages: [] } } *)
| PRequestId (requestId : Z)   (* { requestId } *)
| PFriendId (friendId : Z)     (* { friendId } *)
| PByUser (byUser : Z).        (* { byUser } *)

Record Event := mkEvent {
  room : string;
  event : string;
  payload : Payload
}.

(** [`user_${id}`] *)
Definition userRoom (id : Z) : string := "user_" +:+ pretty id.

(** [`${x}`] of a string column that may be NULL. *)
Definition interpolate (o : option string) : string := default "null" o.

(** ** Responses *)

Record Response := mkResponse {
  code : Z;
  message : string;
  contact : option (Z * Contact)
}.

Record Outcome := mkOutcome {
  db : Db;
  emitted : list Event;
  response : Response
}.

(** A [return res.status(c).json({ message })] before any write. *)
Definition reject (s : Db) (c : Z) (msg : string) : Outcome :=
  {| db := s; emitted := []; response := mkResponse c msg None |}.

(** The [catch] block of a handler: what was written and emitted before the
    exception stays. *)
Definition crash (s : Db) (evs : list Event) (msg : string) : Outcome :=
  {| db := s; emitted := evs; response := mkResponse 500 msg None |}.

(** ** The handlers that write *)

(** [POST /api/contacts/send-request/:userId] *)
Definition sendFriendRequest (requesterId addresseeId : Z) (s : Db) : Outcome :=
  if decide (requesterId = addresseeId) then
    reject s 400 "You cannot send a friend request to yourself"
  else match findByPk s addresseeId with
  | None => reject s 400 "The user you are trying to add does not exist"
  | Some _ =>
    match findOne (λ r, pairOf requesterId addresseeId r.2) (contacts s) with
    | Some existingContact =>
        if decide (status existingContact.2 = accepted) then
          reject s 409 "You are already friends with this user"
        else reject s 409 "A friend request already exists"
    | None =>
        let id := newId (contacts s) in
        let newRequest := mkContact requesterId addresseeId pending in
        let s' := setContacts s (<[id := newRequest]> (contacts s)) in
        match findProfile false s' requesterId with
        | None => (* sender.toJSON() on null *)
            crash s' [] "An internal server error occurred."
        | Some sender =>
            {| db := s';
               emitted := [mkEvent (userRoom addresseeId) "newFriendRequest"
                                   (PRequest sender id)];
               response := mkResponse 201 "Friend request sent successfully."
                                      (Some (id, newRequest)) |}
        end
    end
  end.

(** [POST /api/contacts/accept/:requestId] or [/decline/:requestId];
    [action] is [req.body.action], [None] when it is not a string. *)
Definition updateFriendRequest (currentUserId requestId : Z)
    (action : option string) (s : Db) : Outcome :=
  if decide (action ∈ [Some "accept"; Some "decline"]) then
    match contacts s !! requestId with
    | None => reject s 404 "Friend request not found."
    | Some request =>
      if decide (addresseeId request ≠ currentUserId) then
        reject s 403 "You are not authorized to respond to this request."
      else if decide (status request ≠ pending) then
        reject s 409 "This request has already been responded to."
      else if decide (action = Some "accept") then
        let request' :=
          mkContact (requesterId request) (addresseeId request) accepted in
        let s' := setContacts s (<[requestId := request']> (contacts s)) in
        match findProfile true s' currentUserId with
        | None => (* acceptor.name on null *)
            crash s' [] "An internal server error occurred."
        | Some acceptor =>
          let toSender :=
            mkEvent (userRoom (requesterId request')) "friendRequestAccepted"
              (PNewFriend ("You are now friends with "
                             +:+ interpolate (name acceptor.2)) acceptor) in
          match findProfile true s' (requesterId request') with
          | None => (* sender.name on null, after the first emit *)
              crash s' [toSender] "An internal server error occurred."
          | Some sender =>
              {| db := s';
                 emitted :=
                   [toSender;
                    mkEvent (userRoom currentUserId) "newFriendAdded"
                      (PNewFriend ("You are now friends with "
                                     +:+ interpolate (name sender.2)) sender)];
                 response := mkResponse 200 "Friend request accepted."
                                        (Some (requestId, request')) |}
          end
        end
      else
        {| db := setContacts s (delete requestId (contacts s));
           emitted := [mkEvent (userRoom (requesterId request))
                               "friendRequestDeclined" (PRequestId requestId)];
           response := mkResponse 200 "Friend request declined." None |}
    end
  else reject s 400 "Invalid action. Must be 'accept' or 'decline'.".

(** [POST /api/contacts/unfriend/:userId] *)
Definition removeFriend (currentUserId friendId : Z) (s : Db) : Outcome :=
  match findOne (λ r, status r.2 = accepted ∧ pairOf currentUserId friendId r.2)
                (contacts s) with
  | None => reject s 404 "You are not friends with this user."
  | Some friendship =>
      {| db := setContacts s (delete friendship.1 (contacts s));
         emitted := [mkEvent (userRoom friendId) "friendRemoved"
                             (PFriendId currentUserId)];
         response := mkResponse 200 "Friend removed successfully." None |}
  end.

(** [POST /api/contacts/block/:userId] *)
Definition blockUser (requesterId addresseeId : Z) (s : Db) : Outcome :=
  if decide (requesterId = addresseeId) then
    reject s 400 "You cannot block yourself."
  else match findByPk s addresseeId with
  | None => reject s 404 "The user you are trying to block does not exist."
  | Some _ =>
    match findOne (λ r, pairOf requesterId addresseeId r.2) (contacts s) with
    | Some existingContact =>
        let existingContact' := mkContact requesterId addresseeId blocked in
        {| db := setContacts s
                   (<[existingContact.1 := existingContact']> (contacts s));
           emitted := [];
           response := mkResponse 200 "User blocked successfully."
                         (Some (existingContact.1, existingContact')) |}
    | None =>
        let id := newId (contacts s) in
        let newBlockedContact := mkContact requesterId addresseeId blocked in
        {| db := setContacts s (<[id := newBlockedContact]> (contacts s));
           emitted := [mkEvent (userRoom addresseeId) "youWereBlocked"
                               (PByUser requesterId)];
           response := mkResponse 201 "User blocked successfully."
                         (Some (id, newBlockedContact)) |}
    end
  end.

(** [POST /api/contacts/cancel-request/:requestId] *)
Definition cancelRequest (requesterId' requestId : Z) (s : Db) : Outcome :=
  match findOne (λ r, r.1 = requestId ∧ requesterId r.2 = requesterId'
                      ∧ status r.2 = pending) (contacts s) with
  | None =>
      reject s 404 "Request not found or you are not authorized to cancel it."
  | Some request =>
      {| db := setContacts s (delete request.1 (contacts s));
         emitted := [mkEvent (userRoom (addresseeId request.2))
                             "friendRequestCancelled" (PRequestId requestId)];
         response := mkResponse 200 "Friend request cancelled." None |}
  end.

(** [POST /api/contacts/unblock/:userId] *)
Definition unblockUser (currentUserId blockedUserId : Z) (s : Db) : Outcome :=
  match findOne (λ r, requesterId r.2 = currentUserId
                      ∧ addresseeId r.2 = blockedUserId
                      ∧ status r.2 = blocked) (contacts s) with
  | None => reject s 401 "Blocked relationship not found."
  | Some contact =>
      {| db := setContacts s (delete contact.1 (contacts s));
         emitted := [mkEvent (userRoom blockedUserId) "youWereUnblocked"
                             (PByUser currentUserId)];
         response := mkResponse 200 "User unblocked successfully." None |}
  end.

(** ** The failures of a request *)

(** The failures [sendFriendRequest] reports. *)
Inductive RequestFailure := InvalidOperation | NotFound | Conflict.

(** How a response of [sendFriendRequest] reports them: the handler answers
    status 400 both to a request to oneself and to a request to a user who
    does not exist, with a message of its own for each, and 409 to a request
    on a pair that has a row. *)
Definition requestFailure (r : Response) : option RequestFailure :=
  if decide (code r = 409) then Some Conflict
  else if decide (code r = 400
                  ∧ message r = "You cannot send a friend request to yourself")
  then Some InvalidOperation
  else if decide (code r = 400
                  ∧ message r = "The user you are trying to add does not exist")
  then Some NotFound
  else None.

(** ** Sequences of operations *)

Inductive Op :=
| RequestConnection (actor target : Z)
| RespondToRequest (actor requestId : Z) (action : option string)
| CancelRequest (actor requestId : Z)
| RemoveConnection (actor other : Z)
| BlockUser (actor target : Z)
| UnblockUser (actor target : Z).

Definition perform (op : Op) (s : Db) : Outcome :=
  match op with
  | RequestConnection actor target => sendFriendRequest actor target s
  | RespondToRequest actor requestId action =>
      updateFriendRequest actor requestId action s
  | CancelRequest actor requestId => cancelRequest actor requestId s
  | RemoveConnection actor other => removeFriend actor other s
  | BlockUser actor target => blockUser actor target s
  | UnblockUser actor target => unblockUser actor target s
  end.

(** The tables after each operation of a sequence, in order. *)
Fixpoint observe (ops : list Op) (s : Db) : list Db :=
  match ops with
  | [] => []
  | op :: rest => let s' := db (perform op s) in s' :: observe rest s'
  end.

(** The HTTP status of a [res.status(c)] the handlers use for a failed
    validation or authorization: 400 InvalidOperation, 401 Unauthorized,
    403 Forbidden, 404 NotFound, 409 Conflict. *)
Definition validationError (c : Z) : Prop := c ∈ [400; 401; 403; 404; 409].

Definition succeeded (o : Outcome) : Prop :=
  code (response o) = 200 ∨ code (response o) = 201.

Definition isAccept (op : Op) : Prop :=
  match op with
  | RespondToRequest _ _ action => action = Some "accept"
  | _ => False
  end.

(** The rows of a pair. *)
Definition rowsOfPair (u v : Z) (m : gmap Z Contact) : gmap Z Contact :=
  filter (λ r, pairOf u v r.2) m.

(** Invariant I1 on the [Contact] table, as a count: at most one row per
    pair of distinct users. *)
Definition atMostOneRow (m : gmap Z Contact) : Prop :=
  ∀ u v, u ≠ v → (size (rowsOfPair u v m) ≤ 1)%nat.

(** The same invariant by rows: two rows on the same pair of distinct users
    are the same row. *)
Definition uniquePerPair (m : gmap Z Contact) : Prop :=
  ∀ u v i j c d, u ≠ v →
    m !! i = Some c → m !! j = Some d → pairOf u v c → pairOf u v d → i = j.

(** ** Avatar resolution of [getFriends] *)

(** [hay.includes(needle)] *)
Fixpoint includes (needle hay : string) : bool :=
  String.prefix needle hay ||
  match hay with
  | EmptyString => false
  | String _ rest => includes needle rest
  end.

(** Upper case of an ASCII character: a-z go to A-Z, the others stay. *)
Definition asciiUpper (c : Ascii.ascii) : Ascii.ascii :=
  let n := Ascii.N_of_ascii c in
  if ((97 <=? n) && (n <=? 122))%N then Ascii.ascii_of_N (n - 32)%N else c.

Definition isAscii (c : Ascii.ascii) : Prop := (Ascii.N_of_ascii c < 128)%N.

(** The string operations of the JavaScript runtime the controller calls on
    a display name.  [charAt0 s] is [s[0]], the first UTF-16 code unit of a
    non-empty [s], as a string; [toUpperCase s] is
    [String.prototype.toUpperCase], with the Unicode case mapping of the
    runtime (it may return several characters).  What is fixed is their
    behaviour on ASCII: a text starting with an ASCII character has that
    character as its first code unit, and the upper case of an ASCII
    character is that of [asciiUpper]. *)
Class JsRuntime := {
  charAt0 : string → string;
  toUpperCase : string → string;
  charAt0_ascii c rest :
    isAscii c → charAt0 (String c rest) = String c EmptyString;
  toUpperCase_ascii c :
    isAscii c →
    toUpperCase (String c EmptyString) = String (asciiUpper c) EmptyString
}.

(** Truth value of a string that may be null: null and the empty string are
    falsy. *)
Definition truthy (o : option string) : bool :=
  match o with
  | Some (String _ _) => true
  | _ => false
  end.

(** [friend.name ? friend.name[0].toUpperCase() : "U"] *)
Definition firstLetter {RT : JsRuntime} (friendName : option string)
    : string :=
  match friendName with
  | Some (String c rest) => toUpperCase (charAt0 (String c rest))
  | _ => "U"
  end.

Definition placeholder (letter : string) : string :=
  "https://placehold.co/50x50/695cfe/ffffff?text=" +:+ letter.

Definition imgIncludes (needle : string) (userImg : option string) : bool :=
  match userImg with
  | Some u => includes needle u
  | None => false
  end.

(** The [userImg] computed for a friend in step 5 of [getFriends]. *)
Definition resolveImg {RT : JsRuntime} (friendImg friendName : option string)
    : option string :=
  if truthy friendImg && imgIncludes "placehold.co" friendImg
       && imgIncludes "text=U" friendImg
  then Some (placeholder (firstLetter friendName))
  else if negb (truthy friendImg)
  then Some (placeholder (firstLetter friendName))
  else friendImg.




(** ** The friends aggregation *)

(** A row of [Contact.findAll] with its two [include]d users. *)
Record ContactWithUsers := mkJoined {
  row : Z * Contact;
  Requester : option Profile;
  Addressee : option Profile
}.

Definition getOtherUser (c : ContactWithUsers) (userId : Z) : option Profile :=
  if decide (requesterId (row c).2 = userId) then Addressee c else Requester c.

(** The last message of a conversation with its [include]d [Sender], of
    which the query selects id, name and img. *)
Record LastMessage := mkLast {
  lastRow : Z * Message;
  Sender : option Profile
}.

Definition senderAttrs (d : UserData) : UserData :=
  {| name := name d; email := None; img := img d;
     isOnline := None; userStatus := None |}.

(** [order: [["createdAt", "DESC"]]] with [findOne]: a row with the largest
    [createdAt]. *)
Definition newest (l : list (Z * Message)) : option (Z * Message) :=
  foldl (λ best r,
           match best with
           | None => Some r
           | Some b => if createdAt b.2 <? createdAt r.2 then Some r else Some b
           end) None l.

Definition findLastMessage (s : Db) (userId friendId : Z) : option LastMessage :=
  (λ r, mkLast r ((λ d, (senderId r.2, senderAttrs d))
                    <$> users s !! senderId r.2))
  <$> newest (filter (λ r : Z * Message,
                        (senderId r.2 = userId ∧ receiverId r.2 = friendId) ∨
                        (senderId r.2 = friendId ∧ receiverId r.2 = userId))
                     (messages s)).

(** Which of the awaited store calls of [getFriends] reject. *)
Record Faults := mkFaults {
  contactLoadFails : bool;
  unreadLoadFails : bool;
  lastMessageFails : Z → bool
}.

Record FriendEntry := mkEntry {
  friend : Profile;            (* ...friend.toJSON(), img: userImg *)
  unreadCount : Z;
  lastMessages : list LastMessage;   (* messages *)
  lastMessage : option LastMessage
}.

Inductive FriendsResponse :=
| FriendsOk (friends : list FriendEntry)          (* 200 *)
| FriendsFailed (status : Z) (message : string).

Definition acceptedContacts (s : Db) (userId : Z) : list ContactWithUsers :=
  (λ r, mkJoined r (findProfile true s (requesterId r.2))
                   (findProfile true s (addresseeId r.2)))
  <$> findAll (λ r, status r.2 = accepted ∧
                    (requesterId r.2 = userId ∨ addresseeId r.2 = userId))
              (contacts s).

Definition friendsList (s : Db) (userId : Z) : list Profile :=
  omap (λ c, getOtherUser c userId) (acceptedContacts s userId).

Definition unreadFor (s : Db) (userId : Z) (friendIds : list Z)
    : list UnreadCount :=
  filter (λ u, ucUserId u = userId ∧ chatType u = "individual"
               ∧ chatId u ∈ friendIds) (unreadCounts s).

(** One task of the [Promise.all]: the inner [try]/[catch]. *)
Definition lastMessageTask (f : Faults) (s : Db) (userId friendId : Z)
    : Z * option LastMessage :=
  if lastMessageFails f friendId then (friendId, None)
  else (friendId, findLastMessage s userId friendId).

Definition countMapOf (rows : list UnreadCount) : gmap Z Z :=
  foldl (λ map item, <[chatId item := count item]> map) ∅ rows.

Definition lastMessageMapOf (items : list (Z * option LastMessage))
    : gmap Z (option LastMessage) :=
  foldl (λ map item, <[item.1 := item.2]> map) ∅ items.

(** [x || 0] on a counter that may be missing. *)
Definition orZero (o : option Z) : Z :=
  match o with
  | Some c => if decide (c = 0) then 0 else c
  | None => 0
  end.

Definition friendWithData {RT : JsRuntime} (countMap : gmap Z Z)
    (lastMessageMap : gmap Z (option LastMessage)) (fr : Profile)
    : FriendEntry :=
  let lastMessage := mjoin (lastMessageMap !! fr.1) in
  let userImg := resolveImg (img fr.2) (name fr.2) in
  {| friend := (fr.1, {| name := name fr.2; email := email fr.2;
                         img := userImg; isOnline := isOnline fr.2;
                         userStatus := userStatus fr.2 |});
     unreadCount := orZero (countMap !! fr.1);
     lastMessages := match lastMessage with Some m => [m] | None => [] end;
     lastMessage := lastMessage |}.

(** [GET /api/contacts/friends] *)
Definition getFriends {RT : JsRuntime} (f : Faults) (userId : Z) (s : Db)
    : FriendsResponse :=
  if contactLoadFails f then FriendsFailed 500 "Failed to fetch friends list."
  else
    let friendsList := friendsList s userId in
    let friendIds := fst <$> friendsList in
    if unreadLoadFails f then FriendsFailed 500 "Failed to fetch friends list."
    else
      let unreadCounts := unreadFor s userId friendIds in
      let lastMessages := lastMessageTask f s userId <$> friendIds in
      let countMap := countMapOf unreadCounts in
      let lastMessageMap := lastMessageMapOf lastMessages in
      FriendsOk (friendWithData countMap lastMessageMap <$> friendsList).

(** The run in which no store call rejects. *)
Definition noFaults : Faults :=
  {| contactLoadFails := false; unreadLoadFails := false;
     lastMessageFails := λ _, false |}.

(** An entry after its last-message lookup was caught: [lastMessage: null],
    [messages: []]. *)
Definition withoutLastMessage (e : FriendEntry) : FriendEntry :=
  {| friend := friend e; unreadCount := unreadCount e;
     lastMessages := []; lastMessage := None |}.

(** ** Sample tables *)

(** A runtime for the sample runs, whose names and avatars are ASCII: the
    first character, and [asciiUpper] on every character. *)
Fixpoint asciiUpperAll (s : string) : string :=
  match s with
  | EmptyString => EmptyString
  | String c rest => String (asciiUpper c) (asciiUpperAll rest)
  end.

Definition asciiRuntime : JsRuntime :=
  {| charAt0 := λ s, match s with
                     | String c _ => String c EmptyString
                     | EmptyString => EmptyString
                     end;
     toUpperCase := asciiUpperAll;
     charAt0_ascii := λ c rest _, eq_refl;
     toUpperCase_ascii := λ c _, eq_refl |}.

Definition ann : UserData :=
  mkUser (Some "Ann") (Some "ann@example.org") None (Some true) None.

Definition bob : UserData :=
  mkUser (Some "bob") (Some "bob@example.org")
         (Some "https://placehold.co/50x50?text=U") (Some false) None.

(** Users 1 and 2, no relationship. *)
Definition strangers : Db :=
  {| contacts := ∅; users := {[ 1 := ann; 2 := bob ]};
     unreadCounts := []; messages := [] |}.

(** Users 1 and 2, request 100 from 1 to 2 pending. *)
Definition requested : Db :=
  {| contacts := {[ 100 := mkContact 1 2 pending ]};
     users := {[ 1 := ann; 2 := bob ]};
     unreadCounts := []; messages := [] |}.

(** Users 1 and 2, friends through row 100. *)
Definition befriended : Db :=
  {| contacts := {[ 100 := mkContact 1 2 accepted ]};
     users := {[ 1 := ann; 2 := bob ]};
     unreadCounts := [];
     messages := [(7, mkMessage 2 1 50 "hi"); (8, mkMessage 1 2 60 "yo")] |}.

(** Users 1, 2 and 3; 1 is friends with 2 and with 3, who has no name, a
    picture of its own and no unread counter; 2 has asked 3. *)
Definition cat : UserData :=
  mkUser None None (Some "https://cdn.example.org/cat.png") None None.

Definition circle : Db :=
  {| contacts := {[ 100 := mkContact 1 2 accepted;
                    101 := mkContact 3 1 accepted;
                    102 := mkContact 2 3 pending ]};
     users := {[ 1 := ann; 2 := bob; 3 := cat ]};
     unreadCounts := [mkUnread 1 "individual" 2 4;
                      mkUnread 2 "individual" 1 9];
     messages := [(7, mkMessage 2 1 50 "hi"); (8, mkMessage 1 2 60 "yo");
                  (9, mkMessage 3 1 70 "meow")] |}.

(** Only the last-message lookup for friend 3 rejects. *)
Definition catLookupDown : Faults :=
  {| contactLoadFails := false; unreadLoadFails := false;
     lastMessageFails := λ id, bool_decide (id = 3) |}.

(** Of each entry of an answer: friend id, avatar, unread count, id of the
    last message. *)
Definition summary (r : FriendsResponse)
    : list (Z * option string * Z * option Z) :=
  match r with
  | FriendsOk entries =>
      (λ e, ((friend e).1, img (friend e).2, unreadCount e,
             (λ m, (lastRow m).1) <$> lastMessage e)) <$> entries
  | FriendsFailed _ _ => []
  end.

(** The unread-counter load rejects; everything else answers. *)
Definition unreadDown : Faults :=
  {| contactLoadFails := false; unreadLoadFails := true;
     lastMessageFails := λ _, false |}.

(** ** The handlers that list *)

Inductive ListResponse (A : Type) :=
| ListOk (items : list A)                      (* 200 *)
| ListFailed (status : Z) (message : string).

Global Arguments ListOk {A} items.
Global Arguments ListFailed {A} status message.

(** The rows of the [findAll] of [getReceivedRequests], each with its
    [include]d [Requester] (id, name, email, img, status); [Addressee] is
    not loaded. *)
Definition pendingReceived (s : Db) (currentUserId : Z)
    : list ContactWithUsers :=
  (λ r, mkJoined r (findProfile false s (requesterId r.2)) None)
  <$> findAll (λ r, status r.2 = pending ∧ addresseeId r.2 = currentUserId)
              (contacts s).

(** [GET /api/contacts/received/requests]; an item is
    [{ ...contact.Requester.toJSON(), Contact: { id } }], and [toJSON] on a
    null [Requester] throws. *)
Definition getReceivedRequests (loadFails : bool) (currentUserId : Z) (s : Db)
    : ListResponse (Profile * Z) :=
  if loadFails then ListFailed 500 "Failed to fetch received requests."
  else
    match mapM (λ contact, (λ p, (p, (row contact).1)) <$> Requester contact)
               (pendingReceived s currentUserId) with
    | Some receivedRequests => ListOk receivedRequests
    | None => ListFailed 500 "Failed to fetch received requests."
    end.

Definition pendingSent (s : Db) (currentUserId : Z) : list ContactWithUsers :=
  (λ r, mkJoined r None (findProfile false s (addresseeId r.2)))
  <$> findAll (λ r, status r.2 = pending ∧ requesterId r.2 = currentUserId)
              (contacts s).

(** [GET /api/contacts/sent/requests] *)
Definition getSentRequests (loadFails : bool) (currentUserId : Z) (s : Db)
    : ListResponse (Profile * Z) :=
  if loadFails then ListFailed 500 "An internal server error occurred"
  else
    match mapM (λ contact, (λ p, (p, (row contact).1)) <$> Addressee contact)
               (pendingSent s currentUserId) with
    | Some sentRequests => ListOk sentRequests
    | None => ListFailed 500 "An internal server error occurred"
    end.

Definition blockedBy (s : Db) (currentUserId : Z) : list ContactWithUsers :=
  (λ r, mkJoined r None (findProfile false s (addresseeId r.2)))
  <$> findAll (λ r, status r.2 = blocked ∧ requesterId r.2 = currentUserId)
              (contacts s).

(** [GET /api/contacts/friends/blocked] *)
Definition getBlockedUsers (loadFails : bool) (currentUserId : Z) (s : Db)
    : ListResponse Profile :=
  if loadFails then ListFailed 500 "An internal server error occurred"
  else ListOk (omap Addressee (blockedBy s currentUserId)).

(** [[...new Set(l)]]: the elements of [l] in the order of their first
    occurrence, those of [seen] left out. *)
Fixpoint uniqueFrom (seen l : list Z) : list Z :=
  match l with
  | [] => []
  | x :: rest =>
      if decide (x ∈ seen) then uniqueFrom seen rest
      else x :: uniqueFrom (x :: seen) rest
  end.

(** The attributes id, name, email, img of [getAvailableUsers]. *)
Definition suggestionAttrs (d : UserData) : UserData :=
  {| name := name d; email := email d; img := img d;
     isOnline := None; userStatus := None |}.

Definition exclusionList (s : Db) (currentUserId : Z) : list Z :=
  let contacts :=
    findAll (λ r, requesterId r.2 = currentUserId
                  ∨ addresseeId r.2 = currentUserId) (contacts s) in
  let relatedUserIds :=
    contacts ≫= (λ contact, [requesterId contact.2; addresseeId contact.2]) in
  uniqueFrom [] (currentUserId :: relatedUserIds).

(** [GET /api/contacts/friends/suggestions] *)
Definition getAvailableUsers (contactLoadFails userLoadFails : bool)
    (currentUserId : Z) (s : Db) : ListResponse Profile :=
  if contactLoadFails then ListFailed 500 "An internal server error occurred"
  else
    let exclusionList := exclusionList s currentUserId in
    if userLoadFails then ListFailed 500 "An internal server error occurred"
    else
      ListOk ((λ u : Z * UserData, (u.1, suggestionAttrs u.2))
              <$> filter (λ u : Z * UserData, u.1 ∉ exclusionList)
                         (map_to_list (users s))).

(** What the two request lists have in common: the rows satisfying [P],
    each as the profile of the user [who] of the row and the row's id; no
    list when one of these users is missing. *)
Definition listing (P : Z * Contact → Prop) `{∀ r, Decision (P r)}
    (who : Contact → Z) (s : Db) : option (list (Profile * Z)) :=
  mapM (λ r : Z * Contact,
          (λ p, (p, r.1)) <$> findProfile false s (who r.2))
       (findAll P (contacts s)).

(** ** Further predicates on the tables *)

(** Invariant I2: no row relates a user to itself. *)
Definition noSelfRow (m : gmap Z Contact) : Prop :=
  ∀ i c, m !! i = Some c → requesterId c ≠ addresseeId c.

(** The [Op.or] condition of the last-message query: a message between
    two users, in either direction. *)
Definition exchanged (a b : Z) (r : Z * Message) : Prop :=
  (senderId r.2 = a ∧ receiverId r.2 = b)
  ∨ (senderId r.2 = b ∧ receiverId r.2 = a).

(** An entry carries the newest message exchanged between the caller and
    the entry's friend, or none when they exchanged none. *)
Definition carriesNewest (s : Db) (userId : Z) (e : FriendEntry) : Prop :=
  match lastMessage e with
  | Some m =>
      lastMessages e = [m]
      ∧ lastRow m ∈ messages s
      ∧ exchanged userId (friend e).1 (lastRow m)
      ∧ ∀ r, r ∈ messages s → exchanged userId (friend e).1 r →
             createdAt r.2 ≤ createdAt (lastRow m).2
  | None =>
      lastMessages e = []
      ∧ ∀ r, r ∈ messages s → ¬ exchanged userId (friend e).1 r
  end.

(** The count of the last row of the unread-counter table for (owner,
    "individual", peer), 0 without such a row. *)
Definition storedUnread (s : Db) (ownerId peerId : Z) : Z :=
  default 0
    (count <$> last (filter (λ r, ucUserId r = ownerId
                                  ∧ chatType r = "individual"
                                  ∧ chatId r = peerId)
                            (unreadCounts s))).

(** Users 1 and 2; 1 has blocked 2 through row 100. *)
Definition blockedPair : Db :=
  {| contacts := {[ 100 := mkContact 1 2 blocked ]};
     users := {[ 1 := ann; 2 := bob ]};
     unreadCounts := []; messages := [] |}.

(** User 2 alone, with a pending request from user 1, who is gone. *)
Definition orphaned : Db :=
  {| contacts := {[ 100 := mkContact 1 2 pending ]};
     users := {[ 2 := bob ]};
     unreadCounts := []; messages := [] |}.

(** * Properties *)

(** ** Queries on the contact table *)

Section queries.
Context (P : Z * Contact → Prop) `{∀ r, Decision (P r)}.
Implicit Types m : gmap Z Contact.

Lemma findOne_Some m r :
  findOne P m = Some r → m !! r.1 = Some r.2 ∧ P r.
Proof.
  unfold findOne. intros Hh. apply head_Some_elem_of in Hh.
  apply list_elem_of_filter in Hh as [HP Hin]. destruct r as [i c].
  by apply elem_of_map_to_list in Hin.
Qed.

Lemma findOne_None m i c :
  findOne P m = None → m !! i = Some c → ¬ P (i, c).
Proof.
  unfold findOne. intros Hh Hl HP. apply head_None in Hh.
  apply (filter_nil_not_elem_of _ _ _ Hh HP).
  by apply elem_of_map_to_list.
Qed.

Lemma findOne_found m i c :
  m !! i = Some c → P (i, c) → is_Some (findOne P m).
Proof.
  intros Hl HP. destruct (findOne P m) eqn:E; [eauto|].
  by destruct (findOne_None m i c E Hl).
Qed.
End queries.

Lemma newId_fresh (m : gmap Z Contact) : m !! newId m = None.
Proof. apply not_elem_of_dom. unfold newId. apply is_fresh. Qed.

(** Two rows on one pair are on the same pair as any third description of
    it. *)
Lemma pairOf_same a b u v c d :
  pairOf a b c → pairOf u v c → pairOf a b d → pairOf u v d.
Proof. unfold pairOf. intros [[]|[]] [[]|[]] [[]|[]]; subst; auto. Qed.

(** ** Invariant I1 under the three kinds of write *)

Section writes.
Implicit Types m : gmap Z Contact.

Lemma uniquePerPair_delete m i :
  uniquePerPair m → uniquePerPair (delete i m).
Proof.
  intros Hm u v j k c d Huv Hj Hk.
  apply lookup_delete_Some in Hj as [_ Hj].
  apply lookup_delete_Some in Hk as [_ Hk]. intros Hc Hd.
  apply (Hm u v j k c d); auto.
Qed.

(** [create], guarded by a [findOne] on the pair that found nothing. *)
Lemma uniquePerPair_create m a b st :
  uniquePerPair m →
  (∀ i c, m !! i = Some c → ¬ pairOf a b c) →
  uniquePerPair (<[newId m := mkContact a b st]> m).
Proof.
  intros Hm Hnone u v j k c d Huv Hj Hk Hc Hd.
  apply lookup_insert_Some in Hj as [[<- <-]|[Hnj Hj]];
    apply lookup_insert_Some in Hk as [[<- <-]|[Hnk Hk]]; try done.
  - exfalso. apply (Hnone k d Hk).
    apply (pairOf_same u v a b (mkContact a b st) d); auto.
    left; done.
  - exfalso. apply (Hnone j c Hj).
    apply (pairOf_same u v a b (mkContact a b st) c); auto.
    left; done.
  - apply (Hm u v j k c d); auto.
Qed.

(** [save] of a row whose pair is kept. *)
Lemma uniquePerPair_save m i old new :
  uniquePerPair m → m !! i = Some old →
  (∀ u v, pairOf u v new → pairOf u v old) →
  uniquePerPair (<[i := new]> m).
Proof.
  intros Hm Hi Hkeep u v j k c d Huv Hj Hk Hc Hd.
  apply lookup_insert_Some in Hj as [[<- <-]|[Hnj Hj]];
    apply lookup_insert_Some in Hk as [[<- <-]|[Hnk Hk]]; try done.
  - apply (Hm u v i k old d); auto.
  - apply (Hm u v j i c old); auto.
  - apply (Hm u v j k c d); auto.
Qed.
End writes.

Lemma perform_uniquePerPair op s :
  uniquePerPair (contacts s) → uniquePerPair (contacts (db (perform op s))).
Proof.
  intros Hs. destruct op as [a t|a rid act|a rid|a o|a t|a t]; simpl.
  - unfold sendFriendRequest.
    destruct (decide (a = t)); [done|].
    destruct (findByPk s t); [|done].
    destruct (findOne _ (contacts s)) as [r|] eqn:E.
    { by destruct (decide (status r.2 = accepted)). }
    assert (uniquePerPair (<[newId (contacts s) := mkContact a t pending]>
                             (contacts s))) as Hnew.
    { apply uniquePerPair_create; [done|]. intros i c Hi.
      apply (findOne_None _ _ i c E Hi). }
    by destruct (findProfile false _ a).
  - unfold updateFriendRequest.
    destruct (decide (act ∈ _)); [|done].
    destruct (contacts s !! rid) as [req|] eqn:E; [|done].
    destruct (decide (addresseeId req ≠ a)); [done|].
    destruct (decide (status req ≠ pending)); [done|].
    destruct (decide (act = Some "accept")).
    + assert (uniquePerPair
                (<[rid := mkContact (requesterId req) (addresseeId req) accepted]>
                   (contacts s))) as Hnew.
      { eapply uniquePerPair_save; eauto. }
      destruct (findProfile true _ a); [|done].
      by destruct (findProfile true _ _).
    + simpl. by apply uniquePerPair_delete.
  - unfold cancelRequest. destruct (findOne _ (contacts s)); [|done].
    simpl. by apply uniquePerPair_delete.
  - unfold removeFriend. destruct (findOne _ (contacts s)); [|done].
    simpl. by apply uniquePerPair_delete.
  - unfold blockUser.
    destruct (decide (a = t)); [done|].
    destruct (findByPk s t); [|done].
    destruct (findOne _ (contacts s)) as [r|] eqn:E; simpl.
    + apply findOne_Some in E as [Hr Hp]. simpl in Hp.
      eapply uniquePerPair_save; eauto.
      intros u v Huv. apply (pairOf_same a t u v (mkContact a t blocked)); auto.
      * left; done.
    + apply uniquePerPair_create; [done|]. intros i c Hi.
      apply (findOne_None _ _ i c E Hi).
  - unfold unblockUser. destruct (findOne _ (contacts s)); [|done].
    simpl. by apply uniquePerPair_delete.
Qed.

(** ** Counting the rows of a pair *)

Lemma size_le_1_unique {A} (m : gmap Z A) :
  (size m ≤ 1)%nat ↔ ∀ i j x y, m !! i = Some x → m !! j = Some y → i = j.
Proof.
  split.
  - intros Hsz i j x y Hi Hj. destruct (decide (i = j)) as [|Hne]; [done|].
    exfalso.
    assert (size (delete i m) = 0%nat) as H0.
    { rewrite map_size_delete, Hi. lia. }
    apply map_size_empty_inv in H0.
    assert (delete i m !! j = Some y) as Hd by by rewrite lookup_delete_ne.
    by rewrite H0, lookup_empty in Hd.
  - induction m as [|i x m Hi _] using map_ind; intros Hu.
    + rewrite map_size_empty. lia.
    + rewrite map_size_insert_None by done.
      destruct (map_choose_or_empty m) as [(j & y & Hj)| ->].
      * exfalso. assert (i = j) as <-; [|congruence].
        apply (Hu i j x y); [apply lookup_insert_eq|].
        rewrite lookup_insert_ne; [done|congruence].
      * rewrite map_size_empty. lia.
Qed.

Lemma rowsOfPair_lookup u v m i c :
  rowsOfPair u v m !! i = Some c ↔ m !! i = Some c ∧ pairOf u v c.
Proof. unfold rowsOfPair. by rewrite map_lookup_filter_Some. Qed.

Lemma atMostOneRow_unique m : atMostOneRow m ↔ uniquePerPair m.
Proof.
  split.
  - intros Hm u v i j c d Huv Hi Hj Hc Hd.
    apply (proj1 (size_le_1_unique _) (Hm u v Huv) i j c d);
      by apply rowsOfPair_lookup.
  - intros Hm u v Huv. apply size_le_1_unique. intros i j c d Hi Hj.
    apply rowsOfPair_lookup in Hi as [Hi Hc].
    apply rowsOfPair_lookup in Hj as [Hj Hd].
    apply (Hm u v i j c d); auto.
Qed.

(** C1 (invariant I1).  Starting from a contact table with at most one row
    per pair of distinct users, after each operation of any sequence of the
    six state-machine operations the table still has at most one row for
    every pair of distinct users, in either order of requester and
    addressee. *)
Theorem observe_atMostOneRow (ops : list Op) (s : Db) :
  atMostOneRow (contacts s) →
  Forall (λ s', ∀ u v, u ≠ v → (size (rowsOfPair u v (contacts s')) ≤ 1)%nat)
         (observe ops s).
Proof.
  revert s. induction ops as [|op ops IH]; intros s Hs; simpl.
  - constructor.
  - assert (atMostOneRow (contacts (db (perform op s)))) as Hs'.
    { apply atMostOneRow_unique, perform_uniquePerPair.
      by apply atMostOneRow_unique. }
    constructor; [exact Hs'|by apply IH].
Qed.

(** ** Blocking *)

Lemma rowsOfPair_insert_only u v (m : gmap Z Contact) i new :
  (∀ k c, k ≠ i → m !! k = Some c → ¬ pairOf u v c) →
  pairOf u v new →
  rowsOfPair u v (<[i := new]> m) = {[ i := new ]}.
Proof.
  intros Hothers Hnew. apply map_eq. intros k. apply option_eq. intros c.
  rewrite rowsOfPair_lookup, lookup_singleton_Some, lookup_insert_Some.
  split.
  - intros [[[-> ->]|[Hne Hk]] Hc]; [done|].
    by destruct (Hothers k c).
  - intros [-> ->]. auto.
Qed.

Lemma rowsOfPair_empty u v (m : gmap Z Contact) :
  rowsOfPair u v m = ∅ ↔ ∀ i c, m !! i = Some c → ¬ pairOf u v c.
Proof.
  split.
  - intros He i c Hi Hc.
    assert (rowsOfPair u v m !! i = Some c) as Hl by by apply rowsOfPair_lookup.
    by rewrite He, lookup_empty in Hl.
  - intros Hnone. apply map_eq. intros i. rewrite lookup_empty.
    apply eq_None_not_Some. intros [c Hc].
    apply rowsOfPair_lookup in Hc as [Hi Hc]. by destruct (Hnone i c).
Qed.

Lemma findOne_pair_None u v (m : gmap Z Contact) :
  findOne (λ r, pairOf u v r.2) m = None ↔ rowsOfPair u v m = ∅.
Proof.
  rewrite rowsOfPair_empty. split.
  - intros E i c Hi. apply (findOne_None _ m i c E Hi).
  - intros Hnone. destruct (findOne _ m) as [r|] eqn:E; [|done].
    apply findOne_Some in E as [Hr Hp]. by destruct (Hnone _ _ Hr).
Qed.

(** What [blockUser] does once its two guards are passed. *)
Lemma blockUser_valid u v s :
  uniquePerPair (contacts s) → u ≠ v → is_Some (users s !! v) →
  ∃ i, contacts (db (blockUser u v s))
         = <[i := mkContact u v blocked]> (contacts s)
     ∧ users (db (blockUser u v s)) = users s
     ∧ rowsOfPair u v (contacts (db (blockUser u v s)))
         = {[ i := mkContact u v blocked ]}
     ∧ contact (response (blockUser u v s)) = Some (i, mkContact u v blocked)
     ∧ ((code (response (blockUser u v s)) = 200
         ∧ emitted (blockUser u v s) = []
         ∧ ∃ old, contacts s !! i = Some old ∧ pairOf u v old)
        ∨ (code (response (blockUser u v s)) = 201
           ∧ emitted (blockUser u v s)
               = [mkEvent (userRoom v) "youWereBlocked" (PByUser u)]
           ∧ contacts s !! i = None
           ∧ rowsOfPair u v (contacts s) = ∅)).
Proof.
  intros Hs Huv [tgt Hv]. unfold blockUser, findByPk.
  destruct (decide (u = v)); [done|]. rewrite Hv. simpl.
  destruct (findOne _ (contacts s)) as [r|] eqn:E; simpl.
  - apply findOne_Some in E as [Hr Hp]. simpl in Hp.
    exists r.1. repeat split; auto.
    + apply rowsOfPair_insert_only; [|by left].
      intros k c Hne Hk Hc. apply Hne. apply (Hs u v k r.1 c r.2); auto.
    + left. eauto.
  - exists (newId (contacts s)). repeat split; auto.
    + apply rowsOfPair_insert_only; [|by left].
      intros k c _ Hk. apply (findOne_None _ _ k c E Hk).
    + right. repeat split; auto using newId_fresh.
      by apply findOne_pair_None.
Qed.

(** C2.  For distinct users u and v with v existing, and any contact table
    with at most one row per pair (so the pair is absent, pending in either
    direction, accepted, or blocked by either side), [blockUser u v]
    succeeds and leaves exactly one row for the pair, and that row is
    (requesterId u, addresseeId v, status blocked).  The response is 200
    when a row of the pair existed and was overwritten in place under its
    id, and 201 when the pair had no row and a new one was created. *)
Theorem blockUser_collapses_pair (u v : Z) (s : Db) :
  atMostOneRow (contacts s) → u ≠ v → is_Some (users s !! v) →
  ∃ i, rowsOfPair u v (contacts (db (blockUser u v s)))
         = {[ i := mkContact u v blocked ]}
     ∧ contacts (db (blockUser u v s))
         = <[i := mkContact u v blocked]> (contacts s)
     ∧ ((code (response (blockUser u v s)) = 200
         ∧ ∃ old, contacts s !! i = Some old ∧ pairOf u v old)
        ∨ (code (response (blockUser u v s)) = 201
           ∧ contacts s !! i = None
           ∧ rowsOfPair u v (contacts s) = ∅)).
Proof.
  intros Hs Huv Hv. apply atMostOneRow_unique in Hs.
  destruct (blockUser_valid u v s Hs Huv Hv)
    as (i & Hc & _ & Hrows & _ & [(H200 & _ & Hold)|(H201 & _ & Hn & He)]);
    exists i; repeat split; auto.
Qed.

(** C6.  [blockUser] emits either nothing or the single event
    [youWereBlocked] to the target's room; it emits the event exactly when
    it takes the create-new-row branch (response 201), which is exactly when
    the call passes its two guards and no row existed for the pair before
    the call.  Blocking over an existing row of the pair, whatever its
    status, emits nothing. *)
Theorem blockUser_notifies_only_on_create (u v : Z) (s : Db) :
  let notified :=
    emitted (blockUser u v s)
      = [mkEvent (userRoom v) "youWereBlocked" (PByUser u)] in
  (notified ∨ emitted (blockUser u v s) = [])
  ∧ (notified ↔ code (response (blockUser u v s)) = 201)
  ∧ (notified ↔
       u ≠ v ∧ is_Some (users s !! v) ∧ rowsOfPair u v (contacts s) = ∅)
  ∧ (rowsOfPair u v (contacts s) ≠ ∅ → emitted (blockUser u v s) = []).
Proof.
  unfold blockUser, findByPk.
  destruct (decide (u = v)) as [Heq|Hne]; simpl.
  { repeat split; auto; try done. all: by intros (? & _). }
  destruct (users s !! v) as [tgt|] eqn:Hv; simpl.
  2: { repeat split; auto; try done. all: by intros (_ & [? ?] & _). }
  destruct (findOne _ (contacts s)) as [r|] eqn:E; simpl.
  - assert (rowsOfPair u v (contacts s) ≠ ∅) as Hrows.
    { intros He. apply findOne_pair_None in He. congruence. }
    repeat split; auto; try done. by intros (_ & _ & ?).
  - apply findOne_pair_None in E. repeat split; eauto; done.
Qed.

(** ** Failed validations *)

Ltac not_validation H :=
  unfold validationError in H; simpl in H;
  repeat (apply elem_of_cons in H as [H|H]; [discriminate H|]);
  by apply elem_of_nil in H.

(** C7.  Whatever the operation and the tables, when the response is one of
    the validation or authorization statuses (400 InvalidOperation,
    401 Unauthorized, 403 Forbidden, 404 NotFound, 409 Conflict), the tables
    after the call are the tables before it. *)
Theorem failed_validation_keeps_store (op : Op) (s : Db) :
  validationError (code (response (perform op s))) →
  db (perform op s) = s.
Proof.
  destruct op as [a t|a rid act|a rid|a o|a t|a t]; simpl.
  - unfold sendFriendRequest.
    destruct (decide (a = t)); [done|].
    destruct (findByPk s t); [|done].
    destruct (findOne _ (contacts s)) as [r|].
    { by destruct (decide (status r.2 = accepted)). }
    destruct (findProfile false _ a); intros H; not_validation H.
  - unfold updateFriendRequest.
    destruct (decide (act ∈ _)); [|done].
    destruct (contacts s !! rid) as [req|]; [|done].
    destruct (decide (addresseeId req ≠ a)); [done|].
    destruct (decide (status req ≠ pending)); [done|].
    destruct (decide (act = Some "accept")).
    + destruct (findProfile true _ a);
        [destruct (findProfile true _ _)|]; intros H; not_validation H.
    + intros H; not_validation H.
  - unfold cancelRequest. destruct (findOne _ (contacts s)); [|done].
    intros H; not_validation H.
  - unfold removeFriend. destruct (findOne _ (contacts s)); [|done].
    intros H; not_validation H.
  - unfold blockUser.
    destruct (decide (a = t)); [done|].
    destruct (findByPk s t); [|done].
    destruct (findOne _ (contacts s)); intros H; not_validation H.
  - unfold unblockUser. destruct (findOne _ (contacts s)); [|done].
    intros H; not_validation H.
Qed.

(** C10.  [updateFriendRequest] checks the action before it looks the row
    up: when the action is neither "accept" nor "decline" the call is
    rejected with 400 and the invalid-action message, writes nothing and
    emits nothing, whatever the request id, the row it may name, its status
    and the caller. *)
Theorem invalid_action_rejected_first (actor requestId : Z)
    (action : option string) (s : Db) :
  action ≠ Some "accept" → action ≠ Some "decline" →
  updateFriendRequest actor requestId action s
    = reject s 400 "Invalid action. Must be 'accept' or 'decline'.".
Proof.
  intros Ha Hd. unfold updateFriendRequest.
  destruct (decide (action ∈ _)) as [Hin|]; [|done].
  apply elem_of_cons in Hin as [->|Hin]; [done|].
  apply elem_of_cons in Hin as [->|Hin]; [done|].
  by apply elem_of_nil in Hin.
Qed.

(** ** Notifications *)

Lemma selectAttrs_true d : selectAttrs true d = d.
Proof. by destruct d. Qed.

Ltac not_success H :=
  unfold succeeded in H; simpl in H; destruct H as [H|H]; discriminate H.

(** C5.  On every successful operation: if it is [respondToRequest] with
    action "accept", it emits exactly two events, first
    [friendRequestAccepted] to the room of the row's requester with the
    acceptor's profile, then [newFriendAdded] to the acceptor's room with
    the requester's profile; if it is any other operation it emits at most
    one event. *)
Theorem accept_alone_notifies_both (op : Op) (s : Db) :
  succeeded (perform op s) →
  (∀ actor requestId, op = RespondToRequest actor requestId (Some "accept") →
     ∃ request acceptor sender,
       contacts s !! requestId = Some request
       ∧ users s !! actor = Some acceptor
       ∧ users s !! requesterId request = Some sender
       ∧ emitted (perform op s)
         = [mkEvent (userRoom (requesterId request)) "friendRequestAccepted"
              (PNewFriend ("You are now friends with "
                             +:+ interpolate (name acceptor))
                          (actor, acceptor));
            mkEvent (userRoom actor) "newFriendAdded"
              (PNewFriend ("You are now friends with "
                             +:+ interpolate (name sender))
                          (requesterId request, sender))])
  ∧ (¬ isAccept op → (length (emitted (perform op s)) ≤ 1)%nat).
Proof.
  intros Hok. split.
  - intros actor rid ->. revert Hok. simpl. unfold updateFriendRequest.
    destruct (decide (Some "accept" ∈ _)); [|intros H; not_success H].
    destruct (contacts s !! rid) as [req|]; [|intros H; not_success H].
    destruct (decide (addresseeId req ≠ actor)); [intros H; not_success H|].
    destruct (decide (status req ≠ pending)); [intros H; not_success H|].
    destruct (decide (Some "accept" = Some "accept")); [|done].
    unfold findProfile. simpl.
    destruct (users s !! actor) as [acc|]; simpl;
      [|intros H; not_success H].
    destruct (users s !! requesterId req) as [snd|] eqn:Hsnd; simpl;
      [|intros H; not_success H].
    intros _. exists req, acc, snd. rewrite !selectAttrs_true. done.
  - intros Hna. revert Hok.
    destruct op as [a t|a rid act|a rid|a o|a t|a t]; simpl in *.
    + unfold sendFriendRequest.
      destruct (decide (a = t)); [simpl; lia|].
      destruct (findByPk s t); [|simpl; lia].
      destruct (findOne _ (contacts s)) as [r|].
      { destruct (decide (status r.2 = accepted)); simpl; lia. }
      destruct (findProfile false _ a); simpl; lia.
    + unfold updateFriendRequest.
      destruct (decide (act ∈ _)); [|simpl; lia].
      destruct (contacts s !! rid) as [req|]; [|simpl; lia].
      destruct (decide (addresseeId req ≠ a)); [simpl; lia|].
      destruct (decide (status req ≠ pending)); [simpl; lia|].
      destruct (decide (act = Some "accept")); [done|]. simpl; lia.
    + unfold cancelRequest. destruct (findOne _ (contacts s)); simpl; lia.
    + unfold removeFriend. destruct (findOne _ (contacts s)); simpl; lia.
    + unfold blockUser.
      destruct (decide (a = t)); [simpl; lia|].
      destruct (findByPk s t); [|simpl; lia].
      destruct (findOne _ (contacts s)); simpl; lia.
    + unfold unblockUser. destruct (findOne _ (contacts s)); simpl; lia.
Qed.

(** ** Block, unblock, request again *)

Lemma unblockUser_after_block u v (s : Db) i :
  rowsOfPair u v (contacts s) = {[ i := mkContact u v blocked ]} →
  code (response (unblockUser u v s)) = 200
  ∧ contacts (db (unblockUser u v s)) = delete i (contacts s)
  ∧ users (db (unblockUser u v s)) = users s
  ∧ rowsOfPair u v (contacts (db (unblockUser u v s))) = ∅.
Proof.
  intros Hrows.
  assert (contacts s !! i = Some (mkContact u v blocked)) as Hi.
  { apply (rowsOfPair_lookup u v). rewrite Hrows. apply lookup_singleton_eq. }
  unfold unblockUser.
  destruct (findOne _ (contacts s)) as [r|] eqn:E.
  - apply findOne_Some in E as [Hr (Hq & Ha & Hst)].
    assert (r.1 = i) as Hri.
    { assert (rowsOfPair u v (contacts s) !! r.1 = Some r.2) as Hl.
      { apply rowsOfPair_lookup. split; [done|]. by left. }
      rewrite Hrows in Hl. by apply lookup_singleton_Some in Hl as [? _]. }
    simpl. rewrite Hri. repeat split; auto.
    unfold rowsOfPair. rewrite map_filter_delete.
    fold (rowsOfPair u v (contacts s)). rewrite Hrows.
    apply delete_singleton_eq.
  - exfalso. by apply (findOne_None _ _ i _ E Hi).
Qed.

Lemma sendFriendRequest_fresh_pair u v (s : Db) :
  u ≠ v → is_Some (users s !! u) → is_Some (users s !! v) →
  rowsOfPair u v (contacts s) = ∅ →
  code (response (sendFriendRequest u v s)) = 201
  ∧ ∃ id, contacts s !! id = None
        ∧ contacts (db (sendFriendRequest u v s))
            = <[id := mkContact u v pending]> (contacts s)
        ∧ contact (response (sendFriendRequest u v s))
            = Some (id, mkContact u v pending).
Proof.
  intros Huv [du Hu] [dv Hv] Hrows. unfold sendFriendRequest, findByPk.
  destruct (decide (u = v)); [done|]. rewrite Hv. simpl.
  apply findOne_pair_None in Hrows. rewrite Hrows.
  unfold findProfile. simpl. rewrite Hu. simpl.
  split; [done|]. exists (newId (contacts s)).
  auto using newId_fresh.
Qed.

(** C8.  For distinct existing users u and v and a contact table with at
    most one row per pair: [blockUser u v] succeeds (creating or updating
    the pair's row); then [unblockUser u v] succeeds with 200 and leaves no
    row for the pair; then [requestConnection u v] succeeds with 201 and
    adds, under a fresh id, the single row (u, v, pending). *)
Theorem block_unblock_request (u v : Z) (s : Db) :
  atMostOneRow (contacts s) → u ≠ v →
  is_Some (users s !! u) → is_Some (users s !! v) →
  let s1 := db (blockUser u v s) in
  let s2 := db (unblockUser u v s1) in
  let s3 := db (sendFriendRequest u v s2) in
  succeeded (blockUser u v s)
  ∧ code (response (unblockUser u v s1)) = 200
  ∧ rowsOfPair u v (contacts s2) = ∅
  ∧ code (response (sendFriendRequest u v s2)) = 201
  ∧ ∃ id, contacts s2 !! id = None
        ∧ contacts s3 = <[id := mkContact u v pending]> (contacts s2)
        ∧ rowsOfPair u v (contacts s3) = {[ id := mkContact u v pending ]}.
Proof.
  intros Hs Huv Hu Hv. apply atMostOneRow_unique in Hs.
  destruct (blockUser_valid u v s Hs Huv Hv)
    as (i & Hc1 & Hu1 & Hrows1 & _ & Hcode).
  destruct (unblockUser_after_block u v _ i Hrows1)
    as (H200 & Hc2 & Hu2 & Hrows2).
  destruct (sendFriendRequest_fresh_pair u v (db (unblockUser u v
              (db (blockUser u v s))))) as (H201 & id & Hid & Hc3 & _);
    [done|by rewrite Hu2, Hu1|by rewrite Hu2, Hu1|done|].
  simpl. repeat split; auto.
  - unfold succeeded. destruct Hcode as [(? & _)|(? & _)]; auto.
  - exists id. repeat split; auto. rewrite Hc3.
    apply rowsOfPair_insert_only; [|by left].
    intros k c _ Hk. by apply (proj1 (rowsOfPair_empty u v _) Hrows2 k c).
Qed.

(** ** Avatar resolution *)






(** ** The friends aggregation *)

Lemma foldl_insert_lookup {V} (t : Z → Z * V) (ids : list Z)
    (acc : gmap Z V) (k : Z) :
  (∀ id, (t id).1 = id) →
  foldl (λ map item, <[item.1 := item.2]> map) acc (t <$> ids) !! k
    = if decide (k ∈ ids) then Some (t k).2 else acc !! k.
Proof.
  intros Hfst. revert acc. induction ids as [|id ids IH]; intros acc; simpl.
  - destruct (decide (k ∈ [])) as [Hin|]; [by apply elem_of_nil in Hin|done].
  - rewrite IH, Hfst.
    destruct (decide (k ∈ ids)) as [Hin|Hnin].
    + rewrite decide_True; [done|by right].
    + destruct (decide (k = id)) as [->|Hne].
      * rewrite lookup_insert_eq, decide_True; [done|by left].
      * rewrite lookup_insert_ne by done. rewrite decide_False; [done|].
        intros [?|?]%elem_of_cons; done.
Qed.

Lemma countMapOf_lookup_None (rows : list UnreadCount) (k : Z) :
  (∀ r, r ∈ rows → chatId r ≠ k) → countMapOf rows !! k = None.
Proof.
  unfold countMapOf. generalize (∅ : gmap Z Z) (lookup_empty (M:=gmap Z) (A:=Z) k).
  induction rows as [|r rows IH]; intros acc Hacc Hrows; simpl; [done|].
  apply IH.
  - rewrite lookup_insert_ne; [done|]. apply Hrows. by left.
  - intros r' Hr'. apply Hrows. by right.
Qed.

Lemma lastMessageTask_fst f s userId id : (lastMessageTask f s userId id).1 = id.
Proof. unfold lastMessageTask. by destruct (lastMessageFails f id). Qed.

Lemma lastMessageMap_lookup f s userId (ids : list Z) k :
  k ∈ ids →
  mjoin (lastMessageMapOf (lastMessageTask f s userId <$> ids) !! k)
    = if lastMessageFails f k then None else findLastMessage s userId k.
Proof.
  intros Hin. unfold lastMessageMapOf.
  rewrite foldl_insert_lookup by apply lastMessageTask_fst.
  rewrite decide_True by done. unfold lastMessageTask.
  by destruct (lastMessageFails f k).
Qed.

Lemma friendWithData_faults {RT : JsRuntime} f s userId cm (ids : list Z) fr :
  fr.1 ∈ ids →
  friendWithData cm (lastMessageMapOf (lastMessageTask f s userId <$> ids)) fr
  = let e0 := friendWithData cm
                (lastMessageMapOf (lastMessageTask noFaults s userId <$> ids)) fr
    in if lastMessageFails f (friend e0).1 then withoutLastMessage e0 else e0.
Proof.
  intros Hin. unfold friendWithData. simpl.
  rewrite !lastMessageMap_lookup by done. simpl.
  by destruct (lastMessageFails f fr.1).
Qed.

(** C4, as the code has it.  [getFriends] answers 500 exactly when the
    contact load or the batch unread-counter load fails.  When both succeed
    it answers 200 whatever last-message lookups fail, and the entries are
    those of the run without failures, in the same order, except that an
    entry whose friend's lookup failed has a null last message and an empty
    message list; the entries of the other friends are the same.  An entry
    whose friend has no stored unread counter for the caller has unread
    count 0. *)
Theorem getFriends_partial_failure {RT : JsRuntime} (f : Faults) (userId : Z) (s : Db) :
  (getFriends f userId s = FriendsFailed 500 "Failed to fetch friends list."
   ↔ contactLoadFails f = true ∨ unreadLoadFails f = true)
  ∧ (contactLoadFails f = false ∧ unreadLoadFails f = false →
     ∃ entries0 entries,
       getFriends noFaults userId s = FriendsOk entries0
       ∧ getFriends f userId s = FriendsOk entries
       ∧ entries = (λ e0, if lastMessageFails f (friend e0).1
                          then withoutLastMessage e0 else e0) <$> entries0
       ∧ ∀ e, e ∈ entries →
           (∀ r, r ∈ unreadCounts s →
              ¬ (ucUserId r = userId ∧ chatType r = "individual"
                 ∧ chatId r = (friend e).1)) →
           unreadCount e = 0).
Proof.
  unfold getFriends.
  destruct (contactLoadFails f) eqn:Hc; simpl.
  { split; [split; auto|]. by intros [? _]. }
  destruct (unreadLoadFails f) eqn:Hu; simpl.
  { split; [split; auto|]. by intros [_ ?]. }
  split; [split; [done|by intros [?|?]]|]. intros _.
  eexists _, _. split; [done|]. split; [done|]. split.
  - etrans; [|apply list_fmap_compose]. apply list_fmap_ext.
    intros k fr Hk. simpl. apply (friendWithData_faults f s userId).
    apply list_elem_of_fmap. exists fr. split; [done|].
    by eapply list_elem_of_lookup_2.
  - intros e He Hnone. apply list_elem_of_fmap in He as (fr & -> & Hfr).
    unfold friendWithData. simpl. rewrite countMapOf_lookup_None; [done|].
    intros r Hr Hid. unfold unreadFor in Hr.
    apply list_elem_of_filter in Hr as [(Hr1 & Hr2 & _) Hr].
    by apply (Hnone r Hr).
Qed.

(** The claim as the specification has it fails: with the contact load
    succeeding and no last-message lookup failing, a failure of the unread
    counter load alone makes the whole call answer 500. *)
Lemma unread_load_failure_fails_call :
  contactLoadFails unreadDown = false
  ∧ getFriends (RT:=asciiRuntime) unreadDown 1 befriended
      = FriendsFailed 500 "Failed to fetch friends list.".
Proof. split; reflexivity. Qed.

(** ** Requesting a connection *)

(** C3.  [sendFriendRequest], guard by guard in the order the handler tests
    them.  A request to oneself fails with InvalidOperation (400, the
    yourself message).  A request to a target that does not exist fails
    with NotFound, which this handler answers with status 400 and the
    does-not-exist message.  A request on a pair that already has a row
    fails with Conflict (409), with the already-friends message when the
    row found is accepted and the request-already-exists message otherwise.
    None of these writes or notifies.  A request that succeeds is answered
    201 and adds, under a fresh id, the row (actor, target, pending), which
    it returns. *)
Theorem sendFriendRequest_validation (actor target : Z) (s : Db) :
  (actor = target →
     sendFriendRequest actor target s
       = reject s 400 "You cannot send a friend request to yourself"
     ∧ requestFailure (response (sendFriendRequest actor target s))
       = Some InvalidOperation)
  ∧ (actor ≠ target → users s !! target = None →
     sendFriendRequest actor target s
       = reject s 400 "The user you are trying to add does not exist"
     ∧ requestFailure (response (sendFriendRequest actor target s))
       = Some NotFound)
  ∧ (actor ≠ target → is_Some (users s !! target) →
     ∀ i c, contacts s !! i = Some c → pairOf actor target c →
     ∃ j d, contacts s !! j = Some d ∧ pairOf actor target d
       ∧ sendFriendRequest actor target s
         = reject s 409 (if decide (status d = accepted)
                         then "You are already friends with this user"
                         else "A friend request already exists")
       ∧ requestFailure (response (sendFriendRequest actor target s))
         = Some Conflict)
  ∧ (succeeded (sendFriendRequest actor target s) →
     code (response (sendFriendRequest actor target s)) = 201
     ∧ requestFailure (response (sendFriendRequest actor target s)) = None
     ∧ ∃ id, contacts s !! id = None
       ∧ contacts (db (sendFriendRequest actor target s))
           = <[id := mkContact actor target pending]> (contacts s)
       ∧ contact (response (sendFriendRequest actor target s))
           = Some (id, mkContact actor target pending)).
Proof.
  unfold sendFriendRequest, findByPk. split; [|split; [|split]].
  - intros ->. by rewrite decide_True.
  - intros Hne Ht. rewrite decide_False by done. by rewrite Ht.
  - intros Hne [d Ht] i c Hi Hc. rewrite decide_False by done.
    rewrite Ht. simpl.
    destruct (findOne _ (contacts s)) as [r|] eqn:E.
    + apply findOne_Some in E as [Hr Hp]. exists r.1, r.2.
      repeat split; auto; by destruct (decide (status r.2 = accepted)).
    + by destruct (findOne_None _ _ i c E Hi).
  - destruct (decide (actor = target)); [intros H; not_success H|].
    destruct (_ <$> users s !! target); [|intros H; not_success H].
    destruct (findOne _ (contacts s)) as [r|].
    { destruct (decide (status r.2 = accepted)); intros H; not_success H. }
    destruct (findProfile false _ actor); [|intros H; not_success H].
    intros _. split; [done|]. split; [done|].
    exists (newId (contacts s)). auto using newId_fresh.
Qed.

(** On the sample tables, where user 3 does not exist: user 1 asking to
    connect to 3 is answered 400 with the does-not-exist message and writes
    nothing; user 1 blocking 3 is answered 404. *)
Example sendFriendRequest_missing_target_is_400 :
  users strangers !! 3 = None
  ∧ sendFriendRequest 1 3 strangers
      = reject strangers 400 "The user you are trying to add does not exist"
  ∧ requestFailure (response (sendFriendRequest 1 3 strangers)) = Some NotFound
  ∧ code (response (blockUser 1 3 strangers)) = 404.
Proof. repeat split; reflexivity. Qed.

(** ** The theorems on the sample tables *)

Lemma atMostOneRow_singleton i c : atMostOneRow {[ i := c ]}.
Proof.
  apply atMostOneRow_unique. intros u v j k c1 c2 _ Hj Hk _ _.
  apply lookup_singleton_Some in Hj as [<- _].
  by apply lookup_singleton_Some in Hk as [<- _].
Qed.

Lemma observe_atMostOneRow_witness :
  atMostOneRow (contacts requested)
  ∧ Forall (λ s', ∀ u v, u ≠ v →
                    (size (rowsOfPair u v (contacts s')) ≤ 1)%nat)
      (observe [RespondToRequest 2 100 (Some "accept"); BlockUser 2 1;
                UnblockUser 2 1; RequestConnection 2 1; BlockUser 1 2]
               requested).
Proof.
  split; [apply atMostOneRow_singleton|].
  apply (observe_atMostOneRow _ requested). apply atMostOneRow_singleton.
Defined.

Lemma blockUser_collapses_pair_witness :
  ∃ i, rowsOfPair 2 1 (contacts (db (blockUser 2 1 requested)))
         = {[ i := mkContact 2 1 blocked ]}
     ∧ contacts (db (blockUser 2 1 requested))
         = <[i := mkContact 2 1 blocked]> (contacts requested)
     ∧ ((code (response (blockUser 2 1 requested)) = 200
         ∧ ∃ old, contacts requested !! i = Some old ∧ pairOf 2 1 old)
        ∨ (code (response (blockUser 2 1 requested)) = 201
           ∧ contacts requested !! i = None
           ∧ rowsOfPair 2 1 (contacts requested) = ∅)).
Proof.
  apply (blockUser_collapses_pair 2 1 requested).
  - apply atMostOneRow_singleton.
  - lia.
  - exists ann. reflexivity.
Defined.

Lemma failed_validation_keeps_store_witness :
  validationError (code (response (perform (RequestConnection 2 1) requested)))
  ∧ db (perform (RequestConnection 2 1) requested) = requested.
Proof.
  assert (validationError
            (code (response (perform (RequestConnection 2 1) requested))))
    as Hv.
  { change (409 ∈ [400; 401; 403; 404; 409]). set_solver. }
  split; [exact Hv|].
  apply (failed_validation_keeps_store (RequestConnection 2 1) requested Hv).
Defined.

Lemma invalid_action_rejected_first_witness :
  updateFriendRequest 2 100 (Some "approve") requested
    = reject requested 400 "Invalid action. Must be 'accept' or 'decline'.".
Proof.
  apply (invalid_action_rejected_first 2 100 (Some "approve") requested);
    discriminate.
Defined.

Lemma accept_alone_notifies_both_witness :
  succeeded (perform (RespondToRequest 2 100 (Some "accept")) requested)
  ∧ (length (emitted (perform (RespondToRequest 2 100 (Some "accept"))
                              requested)) = 2)%nat.
Proof.
  assert (succeeded (perform (RespondToRequest 2 100 (Some "accept"))
                             requested)) as Hok.
  { left. reflexivity. }
  split; [exact Hok|].
  destruct (accept_alone_notifies_both _ requested Hok) as [Hacc _].
  destruct (Hacc 2 100 eq_refl) as (req & acc & snd & _ & _ & _ & ->).
  reflexivity.
Defined.

Lemma block_unblock_request_witness :
  succeeded (blockUser 1 2 befriended)
  ∧ code (response (unblockUser 1 2 (db (blockUser 1 2 befriended)))) = 200
  ∧ code (response
            (sendFriendRequest 1 2
               (db (unblockUser 1 2 (db (blockUser 1 2 befriended)))))) = 201.
Proof.
  destruct (block_unblock_request 1 2 befriended)
    as (H1 & H2 & _ & H3 & _).
  - apply atMostOneRow_singleton.
  - lia.
  - exists ann. reflexivity.
  - exists bob. reflexivity.
  - auto.
Defined.

(** ** Runs on the sample tables *)

Example request_accept_remove :
  response (sendFriendRequest 1 2 strangers)
    = mkResponse 201 "Friend request sent successfully."
                 (Some (0, mkContact 1 2 pending))
  ∧ (event <$> emitted (sendFriendRequest 1 2 strangers),
     room <$> emitted (sendFriendRequest 1 2 strangers))
    = (["newFriendRequest"], ["user_2"])
  ∧ response (updateFriendRequest 2 100 (Some "accept") requested)
    = mkResponse 200 "Friend request accepted."
                 (Some (100, mkContact 1 2 accepted))
  ∧ (event <$> emitted (updateFriendRequest 2 100 (Some "accept") requested),
     room <$> emitted (updateFriendRequest 2 100 (Some "accept") requested))
    = (["friendRequestAccepted"; "newFriendAdded"], ["user_1"; "user_2"])
  ∧ contacts (db (updateFriendRequest 2 100 (Some "accept") requested))
    = contacts befriended
  ∧ removeFriend 1 2 befriended
    = {| db := setContacts befriended ∅;
         emitted := [mkEvent "user_2" "friendRemoved" (PFriendId 1)];
         response := mkResponse 200 "Friend removed successfully." None |}.
Proof. repeat split; vm_compute; reflexivity. Qed.

Example block_twice :
  code (response (blockUser 1 2 strangers)) = 201
  ∧ code (response (blockUser 1 2 (db (blockUser 1 2 strangers)))) = 200
  ∧ map_to_list (contacts (db (blockUser 1 2 (db (blockUser 1 2 strangers)))))
    = [(0, mkContact 1 2 blocked)]
  ∧ map_to_list (contacts (db (blockUser 2 1 befriended)))
    = [(100, mkContact 2 1 blocked)].
Proof. repeat split; vm_compute; reflexivity. Qed.

Example accept_by_requester_forbidden :
  code (response (updateFriendRequest 1 100 (Some "accept") requested)) = 403
  ∧ code (response (updateFriendRequest 2 100 (Some "accept") befriended)) = 409
  ∧ code (response (updateFriendRequest 2 7 (Some "decline") requested)) = 404
  ∧ code (response (updateFriendRequest 2 7 None requested)) = 400.
Proof. repeat split; vm_compute; reflexivity. Qed.

Example resolveImg_samples :
  resolveImg (RT:=asciiRuntime) (Some "https://placehold.co/50x50?text=U") (Some "bob")
    = Some "https://placehold.co/50x50/695cfe/ffffff?text=B"
  ∧ resolveImg (RT:=asciiRuntime) None (Some "Ann")
    = Some "https://placehold.co/50x50/695cfe/ffffff?text=A"
  ∧ resolveImg (RT:=asciiRuntime) (Some EmptyString) None
    = Some "https://placehold.co/50x50/695cfe/ffffff?text=U"
  ∧ resolveImg (RT:=asciiRuntime) (Some "https://cdn.example.org/cat.png") None
    = Some "https://cdn.example.org/cat.png"
  ∧ resolveImg (RT:=asciiRuntime) (Some "https://placehold.co/50x50?text=K") (Some "kim")
    = Some "https://placehold.co/50x50?text=K".
Proof. repeat split; vm_compute; reflexivity. Qed.

(** In any runtime, for names that start with an ASCII character. *)
Example resolveImg_ascii_names {RT : JsRuntime} :
  resolveImg None (Some "bob")
    = Some "https://placehold.co/50x50/695cfe/ffffff?text=B"
  ∧ resolveImg (Some "https://placehold.co/50x50?text=U") (Some "Zoe")
    = Some "https://placehold.co/50x50/695cfe/ffffff?text=Z"
  ∧ resolveImg (Some EmptyString) (Some "9 lives")
    = Some "https://placehold.co/50x50/695cfe/ffffff?text=9".
Proof.
  unfold resolveImg, firstLetter. simpl.
  rewrite !charAt0_ascii, !toUpperCase_ascii by (unfold isAscii; simpl; lia).
  done.
Qed.

Example getFriends_one_lookup_down :
  summary (getFriends (RT:=asciiRuntime) noFaults 1 circle)
    = [(3, Some "https://cdn.example.org/cat.png", 0, Some 9);
       (2, Some "https://placehold.co/50x50/695cfe/ffffff?text=B", 4, Some 8)]
  ∧ summary (getFriends (RT:=asciiRuntime) catLookupDown 1 circle)
    = [(3, Some "https://cdn.example.org/cat.png", 0, None);
       (2, Some "https://placehold.co/50x50/695cfe/ffffff?text=B", 4, Some 8)].
Proof. split; vm_compute; reflexivity. Qed.

(** * Further properties of the controller *)

(** ** What every writing handler keeps *)

(** Case analysis along the tests of a handler. *)
Ltac handler_cases :=
  repeat match goal with
  | |- context [decide ?P] => destruct (decide P)
  | |- context [findByPk ?s ?t] => destruct (findByPk s t) eqn:?
  | |- context [@findOne ?P ?H ?m] => destruct (@findOne P H m) eqn:?
  | |- context [match ?m !! ?k with _ => _ end] => destruct (m !! k) eqn:?
  | |- context [findProfile ?b ?s ?t] => destruct (findProfile b s t) eqn:?
  end.

Ltac unfold_handler :=
  unfold perform, sendFriendRequest, updateFriendRequest, cancelRequest,
    removeFriend, blockUser, unblockUser.

Lemma perform_other_tables (op : Op) (s : Db) :
  users (db (perform op s)) = users s
  ∧ unreadCounts (db (perform op s)) = unreadCounts s
  ∧ messages (db (perform op s)) = messages s.
Proof. destruct op; unfold_handler; handler_cases; done. Qed.

(** X1.  The writing handlers write to the contact table only: users, unread
    counters and messages are the same after any operation. *)
Theorem perform_frame (op : Op) (s : Db) :
  users (db (perform op s)) = users s
  ∧ unreadCounts (db (perform op s)) = unreadCounts s
  ∧ messages (db (perform op s)) = messages s.
Proof. apply perform_other_tables. Qed.

(** X2.  An operation changes at most one row of the contact table: all rows but
    one id are the same before and after. *)
Theorem perform_one_row (op : Op) (s : Db) :
  ∃ k, ∀ j, j ≠ k →
    contacts (db (perform op s)) !! j = contacts s !! j.
Proof.
  destruct op; unfold_handler; handler_cases; simpl;
    first [ by exists 0
          | eexists; intros j Hj; by rewrite lookup_insert_ne
          | eexists; intros j Hj; by rewrite lookup_delete_ne ].
Qed.

(** X3.  An operation answered with a validation or authorization status
    notifies nobody. *)
Theorem rejected_emits_nothing (op : Op) (s : Db) :
  validationError (code (response (perform op s))) →
  emitted (perform op s) = [].
Proof.
  destruct op; unfold_handler; handler_cases; simpl; try done;
    intros H; not_validation H.
Qed.

Lemma rejected_emits_nothing_witness :
  validationError (code (response (perform (UnblockUser 2 1) blockedPair)))
  ∧ emitted (perform (UnblockUser 2 1) blockedPair) = [].
Proof.
  assert (validationError
            (code (response (perform (UnblockUser 2 1) blockedPair)))) as Hv.
  { change (401 ∈ [400; 401; 403; 404; 409]). set_solver. }
  split; [exact Hv|].
  apply (rejected_emits_nothing (UnblockUser 2 1) blockedPair Hv).
Defined.

(** ** Invariant I2 *)

Lemma noSelfRow_insert (m : gmap Z Contact) k c :
  noSelfRow m → requesterId c ≠ addresseeId c → noSelfRow (<[k := c]> m).
Proof.
  intros Hm Hc i d Hi.
  apply lookup_insert_Some in Hi as [[_ <-]|[_ Hi]]; [done|by eapply Hm].
Qed.

Lemma noSelfRow_delete (m : gmap Z Contact) k :
  noSelfRow m → noSelfRow (delete k m).
Proof.
  intros Hm i d Hi. apply lookup_delete_Some in Hi as [_ Hi]. by eapply Hm.
Qed.

Lemma perform_noSelfRow op s :
  noSelfRow (contacts s) → noSelfRow (contacts (db (perform op s))).
Proof.
  intros Hs. destruct op; unfold_handler; handler_cases; simpl;
    try done;
    first [ by apply noSelfRow_delete
          | by apply noSelfRow_insert
          | apply noSelfRow_insert; [done|]; simpl; by eapply Hs ].
Qed.

(** X4.  Invariant I2: from a contact table in which no row relates a user to
    itself, no sequence of operations produces such a row. *)
Theorem observe_noSelfRow (ops : list Op) (s : Db) :
  noSelfRow (contacts s) →
  Forall (λ s', noSelfRow (contacts s')) (observe ops s).
Proof.
  revert s. induction ops as [|op ops IH]; intros s Hs; simpl.
  - constructor.
  - pose proof (perform_noSelfRow op s Hs) as Hs'.
    constructor; [done|by apply IH].
Qed.

Lemma observe_noSelfRow_witness :
  Forall (λ s', noSelfRow (contacts s'))
    (observe [RespondToRequest 2 100 (Some "accept"); BlockUser 2 1;
              BlockUser 1 1; RequestConnection 2 2] requested).
Proof.
  apply (observe_noSelfRow _ requested).
  intros i c Hi. unfold requested in Hi. simpl in Hi.
  apply lookup_singleton_Some in Hi as [_ <-]. simpl. lia.
Defined.

(** ** Withdrawing what was just done *)

Lemma setContacts_restore (s : Db) (m : gmap Z Contact) :
  setContacts (setContacts s m) (contacts s) = s.
Proof. by destruct s. Qed.

Lemma sendFriendRequest_created u v s :
  code (response (sendFriendRequest u v s)) = 201 →
  u ≠ v
  ∧ rowsOfPair u v (contacts s) = ∅
  ∧ db (sendFriendRequest u v s)
      = setContacts s (<[newId (contacts s) := mkContact u v pending]>
                         (contacts s))
  ∧ contact (response (sendFriendRequest u v s))
      = Some (newId (contacts s), mkContact u v pending).
Proof.
  unfold sendFriendRequest. handler_cases; simpl; try discriminate.
  intros _. repeat split; auto. by apply findOne_pair_None.
Qed.

(** X5.  A request cancelled by its sender leaves the tables as they were before
    the request: if [sendFriendRequest u v] answers 201 with the new row's
    id, [cancelRequest u id] then answers 200 and restores the tables. *)
Theorem request_then_cancel (u v : Z) (s : Db) :
  code (response (sendFriendRequest u v s)) = 201 →
  ∃ id, contact (response (sendFriendRequest u v s))
          = Some (id, mkContact u v pending)
      ∧ code (response (cancelRequest u id (db (sendFriendRequest u v s))))
          = 200
      ∧ emitted (cancelRequest u id (db (sendFriendRequest u v s)))
          = [mkEvent (userRoom v) "friendRequestCancelled" (PRequestId id)]
      ∧ db (cancelRequest u id (db (sendFriendRequest u v s))) = s.
Proof.
  intros H201.
  destruct (sendFriendRequest_created u v s H201) as (Huv & _ & Hdb & Hc).
  exists (newId (contacts s)). split; [done|]. rewrite Hdb.
  unfold cancelRequest.
  destruct (findOne _ _) as [r|] eqn:E; simpl in E.
  - apply findOne_Some in E as [Hr (Hid & _ & _)]. simpl in Hr.
    rewrite Hid, lookup_insert_eq in Hr. injection Hr as <-.
    simpl. rewrite Hid, delete_insert_eq, delete_id by apply newId_fresh.
    by rewrite setContacts_restore.
  - exfalso.
    apply (findOne_None _ _ (newId (contacts s)) (mkContact u v pending) E);
      [apply lookup_insert_eq|done].
Qed.

(** X6.  A request declined by its addressee leaves the tables as they were
    before the request. *)
Theorem request_then_decline (u v : Z) (s : Db) :
  code (response (sendFriendRequest u v s)) = 201 →
  ∃ id, contact (response (sendFriendRequest u v s))
          = Some (id, mkContact u v pending)
      ∧ code (response (updateFriendRequest v id (Some "decline")
                          (db (sendFriendRequest u v s)))) = 200
      ∧ emitted (updateFriendRequest v id (Some "decline")
                   (db (sendFriendRequest u v s)))
          = [mkEvent (userRoom u) "friendRequestDeclined" (PRequestId id)]
      ∧ db (updateFriendRequest v id (Some "decline")
              (db (sendFriendRequest u v s))) = s.
Proof.
  intros H201.
  destruct (sendFriendRequest_created u v s H201) as (Huv & _ & Hdb & Hc).
  exists (newId (contacts s)). split; [done|]. rewrite Hdb.
  unfold updateFriendRequest. simpl. rewrite lookup_insert_eq. simpl.
  destruct (decide (v ≠ v)); [done|]. simpl.
  rewrite delete_insert_eq, delete_id by apply newId_fresh.
  by rewrite setContacts_restore.
Qed.

(** X7.  A block that created the pair's row, undone by [unblockUser], leaves the
    tables as they were before the block. *)
Theorem block_then_unblock (u v : Z) (s : Db) :
  code (response (blockUser u v s)) = 201 →
  code (response (unblockUser u v (db (blockUser u v s)))) = 200
  ∧ emitted (unblockUser u v (db (blockUser u v s)))
      = [mkEvent (userRoom v) "youWereUnblocked" (PByUser u)]
  ∧ db (unblockUser u v (db (blockUser u v s))) = s.
Proof.
  unfold blockUser at 1. handler_cases; simpl; try discriminate. intros _.
  match goal with H : findOne _ _ = None |- _ => rename H into Enone end.
  unfold blockUser. rewrite decide_False by done.
  match goal with H : findByPk s v = Some _ |- _ => rewrite H end.
  rewrite Enone. simpl. unfold unblockUser.
  destruct (findOne _ (contacts (setContacts _ _))) as [r|] eqn:E.
  - apply findOne_Some in E as [Hr (Hq & Ha & _)]. simpl in Hr.
    apply lookup_insert_Some in Hr as [[Hid _]|[_ Hr]].
    + simpl. rewrite <- Hid, delete_insert_eq, delete_id by apply newId_fresh.
      by rewrite setContacts_restore.
    + exfalso. apply (findOne_None _ _ r.1 r.2 Enone Hr). by left.
  - exfalso.
    apply (findOne_None _ _ (newId (contacts s)) (mkContact u v blocked) E);
      [apply lookup_insert_eq|done].
Qed.

Lemma request_then_cancel_witness :
  ∃ id, contact (response (sendFriendRequest 1 2 strangers))
          = Some (id, mkContact 1 2 pending)
      ∧ code (response (cancelRequest 1 id (db (sendFriendRequest 1 2 strangers))))
          = 200
      ∧ emitted (cancelRequest 1 id (db (sendFriendRequest 1 2 strangers)))
          = [mkEvent (userRoom 2) "friendRequestCancelled" (PRequestId id)]
      ∧ db (cancelRequest 1 id (db (sendFriendRequest 1 2 strangers)))
          = strangers.
Proof. apply (request_then_cancel 1 2 strangers). reflexivity. Defined.

Lemma request_then_decline_witness :
  ∃ id, contact (response (sendFriendRequest 2 1 strangers))
          = Some (id, mkContact 2 1 pending)
      ∧ code (response (updateFriendRequest 1 id (Some "decline")
                          (db (sendFriendRequest 2 1 strangers)))) = 200
      ∧ emitted (updateFriendRequest 1 id (Some "decline")
                   (db (sendFriendRequest 2 1 strangers)))
          = [mkEvent (userRoom 2) "friendRequestDeclined" (PRequestId id)]
      ∧ db (updateFriendRequest 1 id (Some "decline")
              (db (sendFriendRequest 2 1 strangers))) = strangers.
Proof. apply (request_then_decline 2 1 strangers). reflexivity. Defined.

Lemma block_then_unblock_witness :
  code (response (unblockUser 1 2 (db (blockUser 1 2 strangers)))) = 200
  ∧ emitted (unblockUser 1 2 (db (blockUser 1 2 strangers)))
      = [mkEvent (userRoom 2) "youWereUnblocked" (PByUser 1)]
  ∧ db (unblockUser 1 2 (db (blockUser 1 2 strangers))) = strangers.
Proof. apply (block_then_unblock 1 2 strangers). reflexivity. Defined.

(** ** Who may cancel, unfriend and unblock *)

(** X8.  [cancelRequest] withdraws request [requestId] exactly when that row is
    pending and was sent by the caller; the row is deleted and the addressee
    is told.  In every other case (no such row, a row sent by somebody else,
    the addressee calling, a row already accepted or blocked) the answer is
    the same 404 and nothing is written. *)
Theorem cancelRequest_rule (actor requestId : Z) (s : Db) :
  (∀ c, contacts s !! requestId = Some c →
        requesterId c = actor → status c = pending →
     cancelRequest actor requestId s
       = {| db := setContacts s (delete requestId (contacts s));
            emitted := [mkEvent (userRoom (addresseeId c))
                                "friendRequestCancelled"
                                (PRequestId requestId)];
            response := mkResponse 200 "Friend request cancelled." None |})
  ∧ ((∀ c, contacts s !! requestId = Some c →
           requesterId c ≠ actor ∨ status c ≠ pending) →
     cancelRequest actor requestId s
       = reject s 404
           "Request not found or you are not authorized to cancel it.").
Proof.
  unfold cancelRequest. split.
  - intros c Hc Hr Hst.
    destruct (findOne _ (contacts s)) as [r|] eqn:E.
    + apply findOne_Some in E as [Hl (Hid & _ & _)].
      rewrite Hid in *. rewrite Hc in Hl. injection Hl as <-. done.
    + by destruct (findOne_None _ _ requestId c E Hc).
  - intros Hno. destruct (findOne _ (contacts s)) as [r|] eqn:E; [|done].
    apply findOne_Some in E as [Hl (Hid & Hr & Hst)]. rewrite Hid in Hl.
    destruct (Hno _ Hl); done.
Qed.

(** X9.  For distinct users under invariant I1: [removeFriend] on an accepted
    row of the pair deletes it, leaves no row for the pair, and tells the
    other user; when the pair's row is not accepted, or there is none, it
    answers 404 and writes nothing. *)
Theorem removeFriend_rule (u v : Z) (s : Db) :
  atMostOneRow (contacts s) → u ≠ v →
  (∀ i c, contacts s !! i = Some c → pairOf u v c → status c = accepted →
     removeFriend u v s
       = {| db := setContacts s (delete i (contacts s));
            emitted := [mkEvent (userRoom v) "friendRemoved" (PFriendId u)];
            response := mkResponse 200 "Friend removed successfully." None |}
     ∧ rowsOfPair u v (delete i (contacts s)) = ∅)
  ∧ ((∀ i c, contacts s !! i = Some c → pairOf u v c → status c ≠ accepted) →
     removeFriend u v s = reject s 404 "You are not friends with this user.").
Proof.
  intros Hs Huv. apply atMostOneRow_unique in Hs. unfold removeFriend. split.
  - intros i c Hi Hp Hst.
    destruct (findOne _ (contacts s)) as [r|] eqn:E.
    + apply findOne_Some in E as [Hl (_ & Hp')].
      assert (r.1 = i) as -> by (apply (Hs u v r.1 i r.2 c); auto).
      split; [done|]. apply rowsOfPair_empty. intros j d Hj Hd.
      apply lookup_delete_Some in Hj as [Hne Hj].
      apply Hne. apply (Hs u v i j c d); auto.
    + by destruct (findOne_None _ _ i c E Hi).
  - intros Hno. destruct (findOne _ (contacts s)) as [r|] eqn:E; [|done].
    apply findOne_Some in E as [Hl (Hst & Hp)]. by destruct (Hno _ _ Hl Hp).
Qed.

(** X10.  Only the user who blocked can lift the block: for distinct users under
    invariant I1, when the pair's row says v blocked u, [unblockUser] called
    by u answers 401 and writes nothing, and called by v deletes the row
    and tells u. *)
Theorem unblock_only_by_blocker (u v i : Z) (s : Db) :
  atMostOneRow (contacts s) → u ≠ v →
  contacts s !! i = Some (mkContact v u blocked) →
  unblockUser u v s = reject s 401 "Blocked relationship not found."
  ∧ unblockUser v u s
    = {| db := setContacts s (delete i (contacts s));
         emitted := [mkEvent (userRoom u) "youWereUnblocked" (PByUser v)];
         response := mkResponse 200 "User unblocked successfully." None |}.
Proof.
  intros Hs Huv Hi. apply atMostOneRow_unique in Hs. unfold unblockUser.
  split.
  - destruct (findOne _ (contacts s)) as [r|] eqn:E; [|done].
    apply findOne_Some in E as [Hl (Hq & Ha & _)].
    assert (r.1 = i) as Hri.
    { apply (Hs u v r.1 i r.2 (mkContact v u blocked)); auto;
        [by left|by right]. }
    rewrite Hri, Hi in Hl. injection Hl as Hl. rewrite <- Hl in Hq.
    simpl in Hq. congruence.
  - destruct (findOne _ (contacts s)) as [r|] eqn:E.
    + apply findOne_Some in E as [Hl (Hq & Ha & _)].
      assert (r.1 = i) as ->; [|done].
      apply (Hs v u r.1 i r.2 (mkContact v u blocked)); auto; by left.
    + by destruct (findOne_None _ _ i _ E Hi).
Qed.

Lemma removeFriend_rule_witness :
  removeFriend 2 1 befriended
    = {| db := setContacts befriended (delete 100 (contacts befriended));
         emitted := [mkEvent (userRoom 1) "friendRemoved" (PFriendId 2)];
         response := mkResponse 200 "Friend removed successfully." None |}
  ∧ rowsOfPair 2 1 (delete 100 (contacts befriended)) = ∅.
Proof.
  destruct (removeFriend_rule 2 1 befriended) as [Hrm _].
  - apply atMostOneRow_singleton.
  - lia.
  - apply (Hrm 100 (mkContact 1 2 accepted)); [reflexivity|by right|done].
Defined.

Lemma unblock_only_by_blocker_witness :
  unblockUser 2 1 blockedPair
    = reject blockedPair 401 "Blocked relationship not found."
  ∧ unblockUser 1 2 blockedPair
    = {| db := setContacts blockedPair (delete 100 (contacts blockedPair));
         emitted := [mkEvent (userRoom 2) "youWereUnblocked" (PByUser 1)];
         response := mkResponse 200 "User unblocked successfully." None |}.
Proof.
  apply (unblock_only_by_blocker 2 1 100 blockedPair).
  - apply atMostOneRow_singleton.
  - lia.
  - reflexivity.
Defined.

(** ** Blocking again *)

Lemma Db_ext (a b : Db) :
  contacts a = contacts b → users a = users b →
  unreadCounts a = unreadCounts b → messages a = messages b → a = b.
Proof. destruct a, b; simpl; congruence. Qed.

(** X11.  Blocking is idempotent: for distinct users, an existing target and a
    table under invariant I1, a second [blockUser u v] right after the first
    answers 200, notifies nobody and leaves the tables as the first call
    left them. *)
Theorem blockUser_twice (u v : Z) (s : Db) :
  atMostOneRow (contacts s) → u ≠ v → is_Some (users s !! v) →
  code (response (blockUser u v (db (blockUser u v s)))) = 200
  ∧ emitted (blockUser u v (db (blockUser u v s))) = []
  ∧ db (blockUser u v (db (blockUser u v s))) = db (blockUser u v s).
Proof.
  intros Hs Huv Hv. apply atMostOneRow_unique in Hs.
  destruct (blockUser_valid u v s Hs Huv Hv) as (i & Hc1 & Hu1 & Hrows1 & _).
  pose proof (perform_uniquePerPair (BlockUser u v) s Hs) as Hs1.
  simpl in Hs1.
  destruct (blockUser_valid u v (db (blockUser u v s)) Hs1 Huv)
    as (j & Hc2 & _ & _ & _ & [(H200 & Hem & old & Hold & Hp)|(_ & _ & _ & He)]).
  { by rewrite Hu1. }
  - repeat split; auto.
    destruct (perform_other_tables (BlockUser u v) (db (blockUser u v s)))
      as (Hfu & Hfc & Hfm). simpl in *.
    apply Db_ext; auto. rewrite Hc2. apply insert_id.
    assert (rowsOfPair u v (contacts (db (blockUser u v s))) !! j = Some old)
      as Hl by by apply rowsOfPair_lookup.
    rewrite Hrows1 in Hl. apply lookup_singleton_Some in Hl as [<- <-].
    rewrite Hc1. apply lookup_insert_eq.
  - rewrite Hrows1 in He. exfalso.
    by apply (map_non_empty_singleton (M:=gmap Z) i (mkContact u v blocked)).
Qed.

Lemma blockUser_twice_witness :
  code (response (blockUser 2 1 (db (blockUser 2 1 befriended)))) = 200
  ∧ emitted (blockUser 2 1 (db (blockUser 2 1 befriended))) = []
  ∧ db (blockUser 2 1 (db (blockUser 2 1 befriended)))
    = db (blockUser 2 1 befriended).
Proof.
  apply (blockUser_twice 2 1 befriended).
  - apply atMostOneRow_singleton.
  - lia.
  - exists ann. reflexivity.
Defined.

(** ** The catch paths of the writing handlers *)

(** X13.  When the requester of a pending row has no user row any more, accepting
    it still marks the row accepted and sends [friendRequestAccepted] to the
    requester's room; the handler then fails on the null sender, sends no
    [newFriendAdded] and answers 500. *)
Theorem accept_missing_requester (actor requestId : Z) (s : Db)
    (request : Contact) (acceptor : UserData) :
  contacts s !! requestId = Some request →
  addresseeId request = actor → status request = pending →
  users s !! actor = Some acceptor →
  users s !! requesterId request = None →
  code (response (updateFriendRequest actor requestId (Some "accept") s)) = 500
  ∧ emitted (updateFriendRequest actor requestId (Some "accept") s)
    = [mkEvent (userRoom (requesterId request)) "friendRequestAccepted"
         (PNewFriend ("You are now friends with "
                        +:+ interpolate (name acceptor))
                     (actor, acceptor))]
  ∧ contacts (db (updateFriendRequest actor requestId (Some "accept") s))
    = <[requestId := mkContact (requesterId request) actor accepted]>
        (contacts s).
Proof.
  intros Hr Ha Hst Hacc Hsnd. unfold updateFriendRequest.
  rewrite decide_True by (apply elem_of_cons; by left).
  rewrite Hr.
  rewrite decide_False by (intros Hn; by apply Hn).
  rewrite decide_False by (intros Hn; by apply Hn).
  rewrite decide_True by done.
  unfold findProfile. simpl. rewrite Hacc. simpl. rewrite Hsnd. simpl.
  rewrite selectAttrs_true, Ha. done.
Qed.

Lemma accept_missing_requester_witness :
  code (response (updateFriendRequest 2 100 (Some "accept") orphaned)) = 500
  ∧ emitted (updateFriendRequest 2 100 (Some "accept") orphaned)
    = [mkEvent (userRoom 1) "friendRequestAccepted"
         (PNewFriend ("You are now friends with " +:+ interpolate (name bob))
                     (2, bob))]
  ∧ contacts (db (updateFriendRequest 2 100 (Some "accept") orphaned))
    = <[100 := mkContact 1 2 accepted]> (contacts orphaned).
Proof.
  apply (accept_missing_requester 2 100 orphaned (mkContact 1 2 pending) bob);
    reflexivity.
Defined.

(** ** The request lists *)

Lemma findAll_elem (P : Z * Contact → Prop) `{∀ r, Decision (P r)}
    (m : gmap Z Contact) i c :
  (i, c) ∈ findAll P m ↔ m !! i = Some c ∧ P (i, c).
Proof.
  unfold findAll. rewrite list_elem_of_filter, elem_of_map_to_list. tauto.
Qed.

Lemma mapM_fmap_compose {A B C} (f : B → option C) (g : A → B) (l : list A) :
  mapM f (g <$> l) = mapM (λ x, f (g x)) l.
Proof.
  induction l as [|x l IH]; [done|].
  change (mapM f (g <$> x :: l))
    with (y ← f (g x); k ← mapM f (g <$> l); mret (y :: k)).
  change (mapM (λ x, f (g x)) (x :: l))
    with (y ← f (g x); k ← mapM (λ x, f (g x)) l; mret (y :: k)).
  by rewrite IH.
Qed.

Lemma mapM_Some_elem {A B} (f : A → option B) (l : list A) (k : list B) :
  mapM f l = Some k → ∀ y, y ∈ k ↔ ∃ x, x ∈ l ∧ f x = Some y.
Proof.
  intros Hm. apply mapM_Some_1 in Hm.
  induction Hm as [|x y l k Hxy _ IH]; intros z.
  - split; [by intros ?%elem_of_nil|by intros (? & ?%elem_of_nil & _)].
  - rewrite elem_of_cons, IH. split.
    + intros [->|(x' & Hin & Hf)]; [exists x|exists x'];
        (split; [|done]); [by left|by right].
    + intros (x' & [->|Hin]%elem_of_cons & Hf); [left; congruence|].
      right. by exists x'.
Qed.

Section listing.
Context (P : Z * Contact → Prop) `{∀ r, Decision (P r)}.
Context (who : Contact → Z) (s : Db).

Lemma listing_Some items :
  listing P who s = Some items →
  ∀ p i, (p, i) ∈ items ↔
    ∃ c d, contacts s !! i = Some c ∧ P (i, c)
         ∧ users s !! who c = Some d ∧ p = (who c, selectAttrs false d).
Proof.
  intros Hl p i. rewrite (mapM_Some_elem _ _ _ Hl). unfold findProfile. split.
  - intros ([j c] & Hin & Hf). apply findAll_elem in Hin as [Hj HP].
    simpl in Hf. destruct (users s !! who c) as [d|] eqn:Hd; [|done].
    simpl in Hf. injection Hf as <- <-. by exists c, d.
  - intros (c & d & Hi & HP & Hd & ->). exists (i, c).
    split; [by apply findAll_elem|]. simpl. by rewrite Hd.
Qed.

Lemma listing_None :
  listing P who s = None ↔
  ∃ i c, contacts s !! i = Some c ∧ P (i, c) ∧ users s !! who c = None.
Proof.
  unfold listing. rewrite mapM_None, Exists_exists. unfold findProfile. split.
  - intros ([i c] & Hin & Hf). apply findAll_elem in Hin as [Hi HP].
    exists i, c. repeat split; auto. simpl in Hf.
    by destruct (users s !! who c).
  - intros (i & c & Hi & HP & Hd). exists (i, c).
    split; [by apply findAll_elem|]. simpl. by rewrite Hd.
Qed.
End listing.

Lemma getReceivedRequests_listing userId s :
  getReceivedRequests false userId s
  = match listing (λ r, status r.2 = pending ∧ addresseeId r.2 = userId)
                  requesterId s with
    | Some items => ListOk items
    | None => ListFailed 500 "Failed to fetch received requests."
    end.
Proof.
  unfold getReceivedRequests, pendingReceived, listing.
  by rewrite mapM_fmap_compose.
Qed.

Lemma getSentRequests_listing userId s :
  getSentRequests false userId s
  = match listing (λ r, status r.2 = pending ∧ requesterId r.2 = userId)
                  addresseeId s with
    | Some items => ListOk items
    | None => ListFailed 500 "An internal server error occurred"
    end.
Proof.
  unfold getSentRequests, pendingSent, listing.
  by rewrite mapM_fmap_compose.
Qed.

(** X14.  With the contact load answering, [getReceivedRequests] fails with 500
    exactly when some pending request addressed to the user comes from a
    requester who has no user row; otherwise it answers 200, and its items
    are exactly the pending rows addressed to the user, each as the profile
    of its requester (without isOnline) and the row's id. *)
Theorem getReceivedRequests_rule (userId : Z) (s : Db) :
  (getReceivedRequests false userId s
     = ListFailed 500 "Failed to fetch received requests."
   ↔ ∃ i c, contacts s !! i = Some c ∧ status c = pending
          ∧ addresseeId c = userId ∧ users s !! requesterId c = None)
  ∧ (∀ items, getReceivedRequests false userId s = ListOk items →
     ∀ p i, (p, i) ∈ items ↔
       ∃ c d, contacts s !! i = Some c ∧ status c = pending
            ∧ addresseeId c = userId ∧ users s !! requesterId c = Some d
            ∧ p = (requesterId c, selectAttrs false d)).
Proof.
  rewrite getReceivedRequests_listing.
  destruct (listing _ requesterId s) as [items|] eqn:E; split.
  - split; [done|]. intros (i & c & Hi & Hst & Ha & Hn). exfalso.
    erewrite (proj2 (listing_None _ _ _)) in E; [done|]. by exists i, c.
  - intros items' [= <-] p i. rewrite (listing_Some _ _ _ _ E). simpl.
    split; intros (c & d & Hi & Hrest); exists c, d; tauto.
  - split; [|done]. intros _.
    apply listing_None in E as (i & c & Hi & [Hst Ha] & Hn). by exists i, c.
  - done.
Qed.

(** X15.  The same for [getSentRequests]: it fails with 500 exactly when some
    pending request sent by the user goes to an addressee who has no user
    row; otherwise its items are exactly the pending rows sent by the user,
    each as the addressee's profile and the row's id. *)
Theorem getSentRequests_rule (userId : Z) (s : Db) :
  (getSentRequests false userId s
     = ListFailed 500 "An internal server error occurred"
   ↔ ∃ i c, contacts s !! i = Some c ∧ status c = pending
          ∧ requesterId c = userId ∧ users s !! addresseeId c = None)
  ∧ (∀ items, getSentRequests false userId s = ListOk items →
     ∀ p i, (p, i) ∈ items ↔
       ∃ c d, contacts s !! i = Some c ∧ status c = pending
            ∧ requesterId c = userId ∧ users s !! addresseeId c = Some d
            ∧ p = (addresseeId c, selectAttrs false d)).
Proof.
  rewrite getSentRequests_listing.
  destruct (listing _ addresseeId s) as [items|] eqn:E; split.
  - split; [done|]. intros (i & c & Hi & Hst & Ha & Hn). exfalso.
    erewrite (proj2 (listing_None _ _ _)) in E; [done|]. by exists i, c.
  - intros items' [= <-] p i. rewrite (listing_Some _ _ _ _ E). simpl.
    split; intros (c & d & Hi & Hrest); exists c, d; tauto.
  - split; [|done]. intros _.
    apply listing_None in E as (i & c & Hi & [Hst Ha] & Hn). by exists i, c.
  - done.
Qed.

(** ** The blocked list and the suggestions *)

Lemma blockedBy_elem (s : Db) (userId : Z) (p : Profile) :
  p ∈ omap Addressee (blockedBy s userId) ↔
  ∃ i c d, contacts s !! i = Some c ∧ status c = blocked
         ∧ requesterId c = userId ∧ users s !! addresseeId c = Some d
         ∧ p = (addresseeId c, selectAttrs false d).
Proof.
  rewrite list_elem_of_omap. unfold blockedBy, findProfile. split.
  - intros (j & Hin & Hp). apply list_elem_of_fmap in Hin as ([i c] & -> & Hin).
    apply findAll_elem in Hin as [Hi [Hst Hr]]. simpl in *.
    destruct (users s !! addresseeId c) as [d|] eqn:Hd; [|done].
    injection Hp as <-. by exists i, c, d.
  - intros (i & c & d & Hi & Hst & Hr & Hd & ->).
    eexists. split.
    + apply list_elem_of_fmap. exists (i, c). split; [reflexivity|].
      by apply findAll_elem.
    + simpl. by rewrite Hd.
Qed.

(** X16.  With the contact load answering, [getBlockedUsers] always answers 200:
    its items are exactly the profiles (without isOnline) of the existing
    addressees of the blocked rows whose requester is the user; a blocked
    row whose addressee has no user row is skipped, and rows in which the
    user is the blocked side are not listed. *)
Theorem getBlockedUsers_rule (userId : Z) (s : Db) :
  ∃ items, getBlockedUsers false userId s = ListOk items
    ∧ ∀ p, p ∈ items ↔
        ∃ i c d, contacts s !! i = Some c ∧ status c = blocked
               ∧ requesterId c = userId ∧ users s !! addresseeId c = Some d
               ∧ p = (addresseeId c, selectAttrs false d).
Proof.
  eexists. split; [reflexivity|]. intros p. apply blockedBy_elem.
Qed.

Lemma uniqueFrom_elem (seen l : list Z) (x : Z) :
  x ∈ uniqueFrom seen l ↔ x ∈ l ∧ x ∉ seen.
Proof.
  revert seen. induction l as [|y l IH]; intros seen; simpl.
  - split; [by intros ?%elem_of_nil|by intros [?%elem_of_nil _]].
  - destruct (decide (y ∈ seen)) as [Hy|Hy].
    + rewrite IH, elem_of_cons. split; [tauto|].
      intros [[->|?] ?]; tauto.
    + rewrite !elem_of_cons, IH, elem_of_cons. split.
      * intros [->|[? ?]]; [tauto|]. split; [tauto|]. tauto.
      * intros [[->|?] ?]; [tauto|].
        destruct (decide (x = y)); [tauto|]. right. tauto.
Qed.

Lemma exclusionList_elem (s : Db) (userId x : Z) :
  x ∈ exclusionList s userId ↔
  x = userId ∨ rowsOfPair userId x (contacts s) ≠ ∅.
Proof.
  unfold exclusionList. rewrite uniqueFrom_elem, elem_of_cons.
  rewrite list_elem_of_bind. split.
  - intros [[->|([i c] & Hx & Hin)] _]; [by left|].
    apply findAll_elem in Hin as [Hi Hu]. simpl in *.
    destruct (decide (x = userId)) as [|Hne]; [by left|]. right.
    intros He. apply (proj1 (rowsOfPair_empty _ _ _) He i c Hi).
    apply elem_of_cons in Hx as [->|Hx]; [|apply elem_of_cons in Hx as [->|Hx]].
    + destruct Hu as [?|?]; [done|]. by right.
    + destruct Hu as [?|?]; [|done]. by left.
    + by apply elem_of_nil in Hx.
  - intros Hx. split; [|by intros ?%elem_of_nil].
    destruct Hx as [->|Hne]; [by left|]. right.
    destruct (map_choose _ Hne) as (i & c & Hl).
    apply rowsOfPair_lookup in Hl as [Hi Hp].
    exists (i, c). split.
    + simpl. destruct Hp as [[_ <-]|[<- _]]; set_solver.
    + apply findAll_elem. split; [done|]. simpl.
      destruct Hp as [[? _]|[_ ?]]; auto.
Qed.

Lemma suggested_elem (s : Db) (userId : Z) (p : Profile) :
  p ∈ ((λ u : Z * UserData, (u.1, suggestionAttrs u.2))
       <$> filter (λ u : Z * UserData, u.1 ∉ exclusionList s userId)
                  (map_to_list (users s))) ↔
  ∃ d, users s !! p.1 = Some d ∧ p.2 = suggestionAttrs d
     ∧ p.1 ≠ userId ∧ rowsOfPair userId p.1 (contacts s) = ∅.
Proof.
  rewrite list_elem_of_fmap. split.
  - intros ([x d] & -> & Hin). apply list_elem_of_filter in Hin as [Hx Hin].
    apply elem_of_map_to_list in Hin. simpl in *.
    rewrite exclusionList_elem in Hx. exists d. repeat split; auto.
    destruct (decide (rowsOfPair userId x (contacts s) = ∅)); tauto.
  - intros (d & Hd & Hp & Hne & He). exists (p.1, d).
    split; [destruct p; simpl in *; congruence|].
    apply list_elem_of_filter. split; [|by apply elem_of_map_to_list].
    simpl. rewrite exclusionList_elem. intros [?|?]; done.
Qed.

(** X17.  With both loads answering, [getAvailableUsers] answers 200 and suggests
    exactly the existing users other than the caller who share no contact
    row with the caller, whatever the row's status and direction; each is
    given with name, email and img only. *)
Theorem getAvailableUsers_rule (userId : Z) (s : Db) :
  ∃ items, getAvailableUsers false false userId s = ListOk items
    ∧ ∀ p, p ∈ items ↔
        ∃ d, users s !! p.1 = Some d ∧ p.2 = suggestionAttrs d
           ∧ p.1 ≠ userId ∧ rowsOfPair userId p.1 (contacts s) = ∅.
Proof.
  eexists. split; [reflexivity|]. intros p. apply suggested_elem.
Qed.

(** ** Who is in the friends list *)

Lemma friendsList_elem (s : Db) (userId : Z) (p : Profile) :
  p ∈ friendsList s userId ↔
  ∃ i c, contacts s !! i = Some c ∧ status c = accepted
       ∧ (requesterId c = userId ∨ addresseeId c = userId)
       ∧ findProfile true s (if decide (requesterId c = userId)
                             then addresseeId c else requesterId c) = Some p.
Proof.
  unfold friendsList, acceptedContacts. rewrite list_elem_of_omap. split.
  - intros (j & Hin & Hp). apply list_elem_of_fmap in Hin as ([i c] & -> & Hin).
    apply findAll_elem in Hin as [Hi [Hst Hu]]. simpl in *.
    exists i, c. repeat split; auto. unfold getOtherUser in Hp. simpl in Hp.
    by destruct (decide (requesterId c = userId)).
  - intros (i & c & Hi & Hst & Hu & Hp). eexists. split.
    + apply list_elem_of_fmap. exists (i, c). split; [reflexivity|].
      by apply findAll_elem.
    + unfold getOtherUser. simpl.
      by destruct (decide (requesterId c = userId)).
Qed.

Lemma friendIds_elem (s : Db) (userId id : Z) :
  id ∈ (fst <$> friendsList s userId) ↔
  is_Some (users s !! id)
  ∧ ∃ i c, contacts s !! i = Some c ∧ status c = accepted
         ∧ ((requesterId c = userId ∧ addresseeId c = id)
            ∨ (requesterId c = id ∧ addresseeId c = userId ∧ id ≠ userId)).
Proof.
  rewrite list_elem_of_fmap. split.
  - intros (p & -> & Hp). apply friendsList_elem in Hp
      as (i & c & Hi & Hst & Hu & Hp).
    unfold findProfile in Hp.
    destruct (decide (requesterId c = userId)) as [Hr|Hr].
    + destruct (users s !! addresseeId c) as [d|] eqn:Hd; [|done].
      injection Hp as <-. simpl. split; [by exists d|].
      exists i, c. auto.
    + destruct (users s !! requesterId c) as [d|] eqn:Hd; [|done].
      injection Hp as <-. simpl. split; [by exists d|].
      exists i, c. repeat split; auto. right. destruct Hu; [done|]. auto.
  - intros ([d Hd] & i & c & Hi & Hst & Hc).
    exists (id, selectAttrs true d). split; [done|].
    apply friendsList_elem. exists i, c. unfold findProfile.
    destruct Hc as [[Hr Ha]|(Hr & Ha & Hne)].
    + repeat split; auto. rewrite decide_True by done. by rewrite Ha, Hd.
    + repeat split; auto. rewrite decide_False by congruence.
      by rewrite Hr, Hd.
Qed.

Lemma getFriends_ok_ids {RT : JsRuntime} f userId s entries :
  getFriends f userId s = FriendsOk entries →
  (λ e, (friend e).1) <$> entries = fst <$> friendsList s userId.
Proof.
  unfold getFriends. destruct (contactLoadFails f); [done|].
  destruct (unreadLoadFails f); [done|]. intros [= <-].
  rewrite <- list_fmap_compose. by apply list_fmap_ext.
Qed.

(** X18.  When the contact load and the unread-counter load answer, [getFriends]
    answers 200, whatever last-message lookups fail, and a user id is among
    its entries exactly when that user exists and is the other side of an
    accepted row of the caller: the addressee of a row the caller requested,
    or the requester of a row addressed to the caller. *)
Theorem getFriends_lists_accepted {RT : JsRuntime} (f : Faults) (userId : Z) (s : Db) :
  contactLoadFails f = false → unreadLoadFails f = false →
  ∃ entries, getFriends f userId s = FriendsOk entries
    ∧ ∀ id, id ∈ ((λ e, (friend e).1) <$> entries) ↔
        is_Some (users s !! id)
        ∧ ∃ i c, contacts s !! i = Some c ∧ status c = accepted
               ∧ ((requesterId c = userId ∧ addresseeId c = id)
                  ∨ (requesterId c = id ∧ addresseeId c = userId
                     ∧ id ≠ userId)).
Proof.
  intros Hc Hu.
  assert (∃ entries, getFriends f userId s = FriendsOk entries)
    as [entries He].
  { unfold getFriends. rewrite Hc, Hu. eauto. }
  exists entries. split; [done|]. intros id.
  rewrite (getFriends_ok_ids _ _ _ _ He). apply friendIds_elem.
Qed.

Lemma getFriends_lists_accepted_witness :
  ∃ entries, getFriends (RT:=asciiRuntime) catLookupDown 1 circle = FriendsOk entries
    ∧ ∀ id, id ∈ ((λ e, (friend e).1) <$> entries) ↔
        is_Some (users circle !! id)
        ∧ ∃ i c, contacts circle !! i = Some c ∧ status c = accepted
               ∧ ((requesterId c = 1 ∧ addresseeId c = id)
                  ∨ (requesterId c = id ∧ addresseeId c = 1 ∧ id ≠ 1)).
Proof.
  apply (getFriends_lists_accepted (RT:=asciiRuntime) catLookupDown 1 circle); reflexivity.
Defined.

(** ** What the lists show after a write *)

Lemma sendFriendRequest_created_users u v s :
  code (response (sendFriendRequest u v s)) = 201 →
  is_Some (users s !! u) ∧ is_Some (users s !! v).
Proof.
  unfold sendFriendRequest, findByPk, findProfile.
  destruct (decide (u = v)); [done|].
  destruct (users s !! v); [|done]. simpl.
  destruct (findOne _ (contacts s)) as [r|].
  { by destruct (decide (status r.2 = accepted)). }
  simpl. destruct (users s !! u); [|done]. eauto.
Qed.

Lemma rowsOfPair_comm u v (m : gmap Z Contact) :
  rowsOfPair u v m = rowsOfPair v u m.
Proof.
  apply map_eq. intros i. apply option_eq. intros c.
  rewrite !rowsOfPair_lookup. unfold pairOf. tauto.
Qed.

(** X19.  After a request answered 201, the new row is in the sender's sent list
    with the addressee's profile and in the addressee's received list with
    the sender's profile, whenever these lists answer; and neither user is
    suggested to the other any more. *)
Theorem request_shows_in_lists (u v : Z) (s : Db) :
  code (response (sendFriendRequest u v s)) = 201 →
  ∃ id du dv,
    contact (response (sendFriendRequest u v s))
      = Some (id, mkContact u v pending)
    ∧ users s !! u = Some du ∧ users s !! v = Some dv
    ∧ (∀ items, getSentRequests false u (db (sendFriendRequest u v s))
                  = ListOk items →
                ((v, selectAttrs false dv), id) ∈ items)
    ∧ (∀ items, getReceivedRequests false v (db (sendFriendRequest u v s))
                  = ListOk items →
                ((u, selectAttrs false du), id) ∈ items)
    ∧ (∀ items, getAvailableUsers false false u (db (sendFriendRequest u v s))
                  = ListOk items → ∀ p, p ∈ items → p.1 ≠ v)
    ∧ (∀ items, getAvailableUsers false false v (db (sendFriendRequest u v s))
                  = ListOk items → ∀ p, p ∈ items → p.1 ≠ u).
Proof.
  intros H201.
  destruct (sendFriendRequest_created u v s H201) as (Huv & _ & Hdb & Hc).
  destruct (sendFriendRequest_created_users u v s H201) as [[du Hu] [dv Hv]].
  exists (newId (contacts s)), du, dv. rewrite Hdb.
  set (id := newId (contacts s)).
  set (s' := setContacts s (<[id := mkContact u v pending]> (contacts s))).
  assert (contacts s' !! id = Some (mkContact u v pending)) as Hid
    by apply lookup_insert_eq.
  assert (rowsOfPair u v (contacts s') ≠ ∅) as Hrow.
  { intros He. apply (proj1 (rowsOfPair_empty _ _ _) He id _ Hid). by left. }
  repeat split; auto.
  - intros items. rewrite getSentRequests_listing.
    destruct (listing _ addresseeId s') as [l|] eqn:E; [|done].
    intros [= <-]. apply (listing_Some _ _ _ _ E). by eexists _, dv.
  - intros items. rewrite getReceivedRequests_listing.
    destruct (listing _ requesterId s') as [l|] eqn:E; [|done].
    intros [= <-]. apply (listing_Some _ _ _ _ E). by eexists _, du.
  - intros items [= <-] p Hp Hpv.
    apply (proj1 (suggested_elem s' u p)) in Hp as (_ & _ & _ & _ & He).
    by rewrite Hpv in He.
  - intros items [= <-] p Hp Hpu.
    apply (proj1 (suggested_elem s' v p)) in Hp as (_ & _ & _ & _ & He).
    rewrite Hpu, rowsOfPair_comm in He. done.
Qed.

Lemma request_shows_in_lists_witness :
  ∃ id du dv,
    contact (response (sendFriendRequest 1 2 strangers))
      = Some (id, mkContact 1 2 pending)
    ∧ users strangers !! 1 = Some du ∧ users strangers !! 2 = Some dv
    ∧ (∀ items, getSentRequests false 1 (db (sendFriendRequest 1 2 strangers))
                  = ListOk items →
                ((2, selectAttrs false dv), id) ∈ items)
    ∧ (∀ items, getReceivedRequests false 2
                  (db (sendFriendRequest 1 2 strangers)) = ListOk items →
                ((1, selectAttrs false du), id) ∈ items)
    ∧ (∀ items, getAvailableUsers false false 1
                  (db (sendFriendRequest 1 2 strangers)) = ListOk items →
                ∀ p, p ∈ items → p.1 ≠ 2)
    ∧ (∀ items, getAvailableUsers false false 2
                  (db (sendFriendRequest 1 2 strangers)) = ListOk items →
                ∀ p, p ∈ items → p.1 ≠ 1).
Proof. apply (request_shows_in_lists 1 2 strangers). reflexivity. Defined.

Lemma accept_ok actor requestId s :
  code (response (updateFriendRequest actor requestId (Some "accept") s)) = 200 →
  ∃ request, contacts s !! requestId = Some request
    ∧ addresseeId request = actor ∧ status request = pending
    ∧ is_Some (users s !! actor)
    ∧ is_Some (users s !! requesterId request)
    ∧ db (updateFriendRequest actor requestId (Some "accept") s)
      = setContacts s (<[requestId := mkContact (requesterId request) actor
                                                accepted]> (contacts s)).
Proof.
  unfold updateFriendRequest, findProfile.
  destruct (decide (Some "accept" ∈ _)); [|done].
  destruct (contacts s !! requestId) as [req|]; [|done].
  destruct (decide (addresseeId req ≠ actor)) as [|Ha]; [done|].
  destruct (decide (status req ≠ pending)) as [|Hst]; [done|].
  destruct (decide (Some "accept" = Some "accept")); [|done]. simpl.
  destruct (users s !! actor) as [da|]; [|done]. simpl.
  destruct (users s !! requesterId req) as [dr|] eqn:Hr; [|done]. simpl.
  intros _. exists req.
  assert (addresseeId req = actor) as Ha' by by destruct (decide (addresseeId req = actor)).
  assert (status req = pending) as Hst' by by destruct (decide (status req = pending)).
  rewrite Ha'. repeat split; eauto.
Qed.

(** X20.  After an accept answered 200, each of the two users is in the other's
    friends list: [getFriends] for the acceptor has an entry for the row's
    requester and [getFriends] for the requester has an entry for the
    acceptor, whenever the contact and unread-counter loads answer. *)
Theorem accept_makes_friends {RT : JsRuntime} (f : Faults) (actor requestId : Z) (s : Db) :
  code (response (updateFriendRequest actor requestId (Some "accept") s)) = 200 →
  contactLoadFails f = false → unreadLoadFails f = false →
  ∃ request mine theirs,
    contacts s !! requestId = Some request
    ∧ getFriends f actor
        (db (updateFriendRequest actor requestId (Some "accept") s))
      = FriendsOk mine
    ∧ requesterId request ∈ ((λ e, (friend e).1) <$> mine)
    ∧ getFriends f (requesterId request)
        (db (updateFriendRequest actor requestId (Some "accept") s))
      = FriendsOk theirs
    ∧ actor ∈ ((λ e, (friend e).1) <$> theirs).
Proof.
  intros H200 Hc Hu.
  destruct (accept_ok actor requestId s H200)
    as (req & Hreq & Ha & Hst & Hua & Hur & Hdb).
  rewrite Hdb.
  set (s' := setContacts s _).
  assert (contacts s' !! requestId
          = Some (mkContact (requesterId req) actor accepted)) as Hrow
    by apply lookup_insert_eq.
  assert (∃ mine, getFriends f actor s' = FriendsOk mine) as [mine Hm].
  { unfold getFriends. rewrite Hc, Hu. eauto. }
  assert (∃ theirs, getFriends f (requesterId req) s' = FriendsOk theirs)
    as [theirs Ht].
  { unfold getFriends. rewrite Hc, Hu. eauto. }
  exists req, mine, theirs. repeat split; auto.
  - rewrite (getFriends_ok_ids _ _ _ _ Hm). apply friendIds_elem.
    split; [done|]. eexists _, _. split; [exact Hrow|]. split; [done|].
    simpl. destruct (decide (requesterId req = actor)); [left|right]; auto.
  - rewrite (getFriends_ok_ids _ _ _ _ Ht). apply friendIds_elem.
    split; [done|]. eexists _, _. split; [exact Hrow|]. split; [done|].
    simpl. by left.
Qed.

Lemma accept_makes_friends_witness :
  ∃ request mine theirs,
    contacts requested !! 100 = Some request
    ∧ getFriends (RT:=asciiRuntime) noFaults 2
        (db (updateFriendRequest 2 100 (Some "accept") requested))
      = FriendsOk mine
    ∧ requesterId request ∈ ((λ e, (friend e).1) <$> mine)
    ∧ getFriends (RT:=asciiRuntime) noFaults (requesterId request)
        (db (updateFriendRequest 2 100 (Some "accept") requested))
      = FriendsOk theirs
    ∧ 2 ∈ ((λ e, (friend e).1) <$> theirs).
Proof.
  apply (accept_makes_friends (RT:=asciiRuntime) noFaults 2 100 requested); reflexivity.
Defined.

Lemma no_accepted_not_friends (s : Db) (u v : Z) :
  (∀ i c, contacts s !! i = Some c → pairOf u v c → status c ≠ accepted) →
  (v ∉ (fst <$> friendsList s u)) ∧ (u ∉ (fst <$> friendsList s v)).
Proof.
  intros Hno. split; intros Hin; apply friendIds_elem in Hin
    as (_ & i & c & Hi & Hst & Hc); apply (Hno i c Hi); auto;
    unfold pairOf; tauto.
Qed.

Lemma removeFriend_ok u v s :
  code (response (removeFriend u v s)) = 200 →
  ∃ i c, contacts s !! i = Some c ∧ status c = accepted ∧ pairOf u v c
       ∧ db (removeFriend u v s) = setContacts s (delete i (contacts s)).
Proof.
  unfold removeFriend. destruct (findOne _ (contacts s)) as [r|] eqn:E; [|done].
  intros _. apply findOne_Some in E as [Hl (Hst & Hp)]. by exists r.1, r.2.
Qed.

(** X21.  For distinct users under invariant I1, after a [removeFriend] answered
    200 neither user is in the other's friends list. *)
Theorem remove_ends_friendship {RT : JsRuntime} (f : Faults) (u v : Z) (s : Db) :
  atMostOneRow (contacts s) → u ≠ v →
  code (response (removeFriend u v s)) = 200 →
  (∀ entries, getFriends f u (db (removeFriend u v s)) = FriendsOk entries →
     v ∉ ((λ e, (friend e).1) <$> entries))
  ∧ (∀ entries, getFriends f v (db (removeFriend u v s)) = FriendsOk entries →
     u ∉ ((λ e, (friend e).1) <$> entries)).
Proof.
  intros Hs Huv H200. apply atMostOneRow_unique in Hs.
  destruct (removeFriend_ok u v s H200) as (i & c & Hi & Hst & Hp & Hdb).
  rewrite Hdb.
  destruct (no_accepted_not_friends
              (setContacts s (delete i (contacts s))) u v) as [Hv Hu].
  { intros j d Hj Hd. simpl in Hj.
    apply lookup_delete_Some in Hj as [Hne Hj]. destruct Hne.
    apply (Hs u v i j c d); auto. }
  split; intros entries He; by rewrite (getFriends_ok_ids _ _ _ _ He).
Qed.

Lemma remove_ends_friendship_witness :
  (∀ entries, getFriends (RT:=asciiRuntime) noFaults 1 (db (removeFriend 1 2 befriended))
                = FriendsOk entries →
     2 ∉ ((λ e, (friend e).1) <$> entries))
  ∧ (∀ entries, getFriends (RT:=asciiRuntime) noFaults 2 (db (removeFriend 1 2 befriended))
                  = FriendsOk entries →
     1 ∉ ((λ e, (friend e).1) <$> entries)).
Proof.
  apply (remove_ends_friendship (RT:=asciiRuntime) noFaults 1 2 befriended).
  - apply atMostOneRow_singleton.
  - lia.
  - reflexivity.
Defined.

(** X22.  For distinct users under invariant I1 and an existing target, after
    [blockUser u v] neither user is in the other's friends list, whatever
    the pair's row was before; v is in u's blocked list, and u is not in
    v's blocked list. *)
Theorem block_replaces_friendship {RT : JsRuntime} (f : Faults) (u v : Z) (s : Db) (dv : UserData) :
  atMostOneRow (contacts s) → u ≠ v → users s !! v = Some dv →
  (∀ entries, getFriends f u (db (blockUser u v s)) = FriendsOk entries →
     v ∉ ((λ e, (friend e).1) <$> entries))
  ∧ (∀ entries, getFriends f v (db (blockUser u v s)) = FriendsOk entries →
     u ∉ ((λ e, (friend e).1) <$> entries))
  ∧ (∃ items, getBlockedUsers false u (db (blockUser u v s)) = ListOk items
       ∧ (v, selectAttrs false dv) ∈ items)
  ∧ (∃ items, getBlockedUsers false v (db (blockUser u v s)) = ListOk items
       ∧ ∀ p, p ∈ items → p.1 ≠ u).
Proof.
  intros Hs Huv Hv. apply atMostOneRow_unique in Hs.
  destruct (blockUser_valid u v s Hs Huv (mk_is_Some _ _ Hv))
    as (i & Hc & Hu & Hrows & _).
  set (s' := db (blockUser u v s)) in *.
  assert (∀ j c, contacts s' !! j = Some c → pairOf u v c →
                 c = mkContact u v blocked) as Honly.
  { intros j c Hj Hp.
    assert (rowsOfPair u v (contacts s') !! j = Some c) as Hl
      by by apply rowsOfPair_lookup.
    rewrite Hrows in Hl. by apply lookup_singleton_Some in Hl as [_ <-]. }
  destruct (no_accepted_not_friends s' u v) as [Hnv Hnu].
  { intros j c Hj Hp. by rewrite (Honly j c Hj Hp). }
  split; [|split; [|split]].
  - intros entries He. by rewrite (getFriends_ok_ids _ _ _ _ He).
  - intros entries He. by rewrite (getFriends_ok_ids _ _ _ _ He).
  - eexists. split; [reflexivity|]. apply blockedBy_elem.
    exists i, (mkContact u v blocked), dv. repeat split; auto.
    + rewrite Hc. apply lookup_insert_eq.
    + simpl. by rewrite Hu.
  - eexists. split; [reflexivity|]. intros p Hp Hpu.
    apply blockedBy_elem in Hp as (j & c & d & Hj & Hst & Hr & Hd & ->).
    simpl in Hpu.
    assert (c = mkContact u v blocked) as Hcu.
    { apply (Honly j c Hj). by right. }
    rewrite Hcu in Hr. simpl in Hr. done.
Qed.

Lemma block_replaces_friendship_witness :
  (∀ entries, getFriends (RT:=asciiRuntime) noFaults 2 (db (blockUser 2 1 befriended))
                = FriendsOk entries →
     1 ∉ ((λ e, (friend e).1) <$> entries))
  ∧ (∀ entries, getFriends (RT:=asciiRuntime) noFaults 1 (db (blockUser 2 1 befriended))
                  = FriendsOk entries →
     2 ∉ ((λ e, (friend e).1) <$> entries))
  ∧ (∃ items, getBlockedUsers false 2 (db (blockUser 2 1 befriended))
                = ListOk items
       ∧ (1, selectAttrs false ann) ∈ items)
  ∧ (∃ items, getBlockedUsers false 1 (db (blockUser 2 1 befriended))
                = ListOk items
       ∧ ∀ p, p ∈ items → p.1 ≠ 2).
Proof.
  apply (block_replaces_friendship (RT:=asciiRuntime) noFaults 2 1 befriended ann).
  - apply atMostOneRow_singleton.
  - lia.
  - reflexivity.
Defined.

(** ** What a friend entry carries *)

Lemma newest_snoc (l : list (Z * Message)) (x : Z * Message) :
  newest (l ++ [x])
  = match newest l with
    | None => Some x
    | Some b => if createdAt b.2 <? createdAt x.2 then Some x else Some b
    end.
Proof. unfold newest. by rewrite foldl_snoc. Qed.

Lemma newest_latest (l : list (Z * Message)) :
  match newest l with
  | None => l = []
  | Some b => b ∈ l ∧ ∀ r, r ∈ l → createdAt r.2 ≤ createdAt b.2
  end.
Proof.
  induction l as [|x l IH] using rev_ind; [done|].
  rewrite newest_snoc. destruct (newest l) as [b|].
  - destruct IH as [Hb Hmax].
    destruct (createdAt b.2 <? createdAt x.2) eqn:Hlt.
    + apply Z.ltb_lt in Hlt. split; [set_solver|].
      intros r [Hr|Hr%list_elem_of_singleton]%elem_of_app.
      * specialize (Hmax r Hr). lia.
      * subst. lia.
    + apply Z.ltb_ge in Hlt. split; [set_solver|].
      intros r [Hr|Hr%list_elem_of_singleton]%elem_of_app; [auto|].
      subst. lia.
  - subst. split; [set_solver|].
    intros r Hr. simpl in Hr. apply list_elem_of_singleton in Hr. subst. lia.
Qed.

Lemma countMapOf_lookup (rows : list UnreadCount) (k : Z) :
  countMapOf rows !! k = count <$> last (filter (λ r, chatId r = k) rows).
Proof.
  unfold countMapOf. induction rows as [|x rows IH] using rev_ind; [done|].
  rewrite foldl_snoc, filter_app, last_app, filter_cons, filter_nil.
  destruct (decide (chatId x = k)) as [<-|Hne]; simpl.
  - by rewrite lookup_insert_eq.
  - by rewrite lookup_insert_ne.
Qed.

Lemma getFriends_ok_entries {RT : JsRuntime} f userId s entries e :
  getFriends f userId s = FriendsOk entries → e ∈ entries →
  ∃ fr, fr ∈ friendsList s userId ∧ (friend e).1 = fr.1
    ∧ unreadCount e
      = orZero (countMapOf (unreadFor s userId (fst <$> friendsList s userId))
                  !! fr.1)
    ∧ lastMessage e
      = (if lastMessageFails f fr.1 then None
         else findLastMessage s userId fr.1)
    ∧ lastMessages e
      = match lastMessage e with Some m => [m] | None => [] end.
Proof.
  unfold getFriends. destruct (contactLoadFails f); [done|].
  destruct (unreadLoadFails f); [done|]. intros [= <-] He.
  apply list_elem_of_fmap in He as (fr & -> & Hfr). exists fr.
  unfold friendWithData. simpl.
  rewrite lastMessageMap_lookup by by apply list_elem_of_fmap_2.
  done.
Qed.

Lemma entry_last_message {RT : JsRuntime} (f : Faults) (userId : Z) (s : Db)
    (entries : list FriendEntry) (e : FriendEntry) :
  getFriends f userId s = FriendsOk entries → e ∈ entries →
  lastMessageFails f (friend e).1 = false →
  carriesNewest s userId e.
Proof.
  intros Hok He Hf. unfold carriesNewest, exchanged.
  destruct (getFriends_ok_entries _ _ _ _ _ Hok He)
    as (fr & _ & Hid & _ & Hlast & Hlist).
  rewrite Hid in *. rewrite Hf in Hlast. rewrite Hlist, Hlast.
  unfold findLastMessage.
  pose proof (newest_latest
    (filter (λ r : Z * Message,
               (senderId r.2 = userId ∧ receiverId r.2 = fr.1)
               ∨ (senderId r.2 = fr.1 ∧ receiverId r.2 = userId))
            (messages s))) as Hn.
  destruct (newest _) as [b|]; simpl.
  - destruct Hn as [Hb Hmax]. apply list_elem_of_filter in Hb as [Hb Hin].
    repeat split; auto. intros r Hr Hx. apply Hmax.
    by apply list_elem_of_filter.
  - split; [done|]. intros r Hr Hx.
    assert (r ∈ filter (λ r : Z * Message,
               (senderId r.2 = userId ∧ receiverId r.2 = fr.1)
               ∨ (senderId r.2 = fr.1 ∧ receiverId r.2 = userId))
            (messages s)) as Hin by by apply list_elem_of_filter.
    rewrite Hn in Hin. by apply elem_of_nil in Hin.
Qed.

Lemma entry_unread_count {RT : JsRuntime} (f : Faults) (userId : Z) (s : Db)
    (entries : list FriendEntry) (e : FriendEntry) :
  getFriends f userId s = FriendsOk entries → e ∈ entries →
  unreadCount e = storedUnread s userId (friend e).1.
Proof.
  intros Hok He. unfold storedUnread.
  destruct (getFriends_ok_entries _ _ _ _ _ Hok He)
    as (fr & Hfr & Hid & Hcount & _).
  rewrite Hcount, Hid, countMapOf_lookup. unfold unreadFor.
  rewrite list_filter_filter.
  rewrite (list_filter_iff _ (λ r, ucUserId r = userId
                                   ∧ chatType r = "individual"
                                   ∧ chatId r = fr.1)).
  - destruct (last _) as [r|]; simpl; [|done].
    by destruct (decide (count r = 0)) as [->|].
  - intros r. split; [tauto|]. intros (? & ? & Hk). repeat split; auto.
    rewrite Hk. by apply list_elem_of_fmap_2.
Qed.

(** X23.  When the contact and unread-counter loads answer, every entry of the
    answer of [getFriends] whose last-message lookup did not fail carries
    the newest message exchanged between the caller and that friend: a row
    of the message table between the two, in either direction, such that
    none between them has a larger [createdAt], alone in the entry's
    [messages] list; when the two exchanged no message, the last message is
    null and the list empty. *)
Theorem getFriends_last_message {RT : JsRuntime} (f : Faults) (userId : Z) (s : Db) :
  contactLoadFails f = false → unreadLoadFails f = false →
  ∃ entries, getFriends f userId s = FriendsOk entries
    ∧ ∀ e, e ∈ entries → lastMessageFails f (friend e).1 = false →
           carriesNewest s userId e.
Proof.
  intros Hc Hu.
  assert (∃ entries, getFriends f userId s = FriendsOk entries)
    as [entries He].
  { unfold getFriends. rewrite Hc, Hu. eauto. }
  exists entries. split; [done|]. intros e.
  apply (entry_last_message f userId s entries e He).
Qed.

(** X24.  When the contact and unread-counter loads answer, the unread count of
    every entry of the answer of [getFriends] is the count of the last row
    of the unread-counter table for (caller, "individual", friend), and 0
    when there is no such row. *)
Theorem getFriends_unread_count {RT : JsRuntime} (f : Faults) (userId : Z) (s : Db) :
  contactLoadFails f = false → unreadLoadFails f = false →
  ∃ entries, getFriends f userId s = FriendsOk entries
    ∧ ∀ e, e ∈ entries →
           unreadCount e = storedUnread s userId (friend e).1.
Proof.
  intros Hc Hu.
  assert (∃ entries, getFriends f userId s = FriendsOk entries)
    as [entries He].
  { unfold getFriends. rewrite Hc, Hu. eauto. }
  exists entries. split; [done|]. intros e.
  apply (entry_unread_count f userId s entries e He).
Qed.

Lemma getFriends_last_message_witness :
  ∃ entries, getFriends (RT:=asciiRuntime) catLookupDown 1 circle = FriendsOk entries
    ∧ ∀ e, e ∈ entries → lastMessageFails catLookupDown (friend e).1 = false →
           carriesNewest circle 1 e.
Proof.
  apply (getFriends_last_message (RT:=asciiRuntime) catLookupDown 1 circle); reflexivity.
Defined.

Lemma getFriends_unread_count_witness :
  ∃ entries, getFriends (RT:=asciiRuntime) noFaults 1 circle = FriendsOk entries
    ∧ ∀ e, e ∈ entries → unreadCount e = storedUnread circle 1 (friend e).1.
Proof.
  apply (getFriends_unread_count (RT:=asciiRuntime) noFaults 1 circle); reflexivity.
Defined.

(** ** The resolved avatar *)

(** X25.  The avatar [getFriends] gives an entry is never null or empty, and
    resolving it again with the same name gives it back. *)
Theorem resolveImg_stable {RT : JsRuntime} (stored displayName : option string) :
  truthy (resolveImg stored displayName) = true
  ∧ resolveImg (resolveImg stored displayName) displayName
    = resolveImg stored displayName.
Proof.
  assert (∀ l, truthy (Some (placeholder l)) = true) as Htr by done.
  assert (∀ l, imgIncludes "placehold.co" (Some (placeholder l)) = true)
    as Hinc by done.
  assert (resolveImg (Some (placeholder (firstLetter displayName)))
                     displayName
          = Some (placeholder (firstLetter displayName))) as Hfix.
  { unfold resolveImg. rewrite Htr, Hinc. simpl negb.
    by destruct (imgIncludes "text=U" _). }
  assert (resolveImg stored displayName
            = Some (placeholder (firstLetter displayName))
          ∨ (resolveImg stored displayName = stored ∧ truthy stored = true))
    as [Hr|[Hr Ht]].
  { unfold resolveImg. destruct (truthy stored); [|by left].
    destruct (imgIncludes "placehold.co" stored);
      destruct (imgIncludes "text=U" stored); auto. }
  - by rewrite Hr, Hfix.
  - by rewrite !Hr.
Qed.

(** ** Runs of the listing handlers on the sample tables *)

Example lists_on_circle :
  getReceivedRequests false 3 circle
    = ListOk [((2, selectAttrs false bob), 102)]
  ∧ getSentRequests false 2 circle
    = ListOk [((3, selectAttrs false cat), 102)]
  ∧ getSentRequests false 1 circle = ListOk []
  ∧ getBlockedUsers false 1 blockedPair = ListOk [(2, selectAttrs false bob)]
  ∧ getBlockedUsers false 2 blockedPair = ListOk []
  ∧ getAvailableUsers false false 2 circle = ListOk []
  ∧ getAvailableUsers false false 1 strangers
    = ListOk [(2, suggestionAttrs bob)]
  ∧ getAvailableUsers false false 1 requested = ListOk [].
Proof. repeat split; vm_compute; reflexivity. Qed.

Example received_list_with_missing_requester :
  getReceivedRequests false 2 orphaned
    = ListFailed 500 "Failed to fetch received requests."
  ∧ getSentRequests false 1 orphaned = ListOk [((2, selectAttrs false bob), 100)]
  ∧ getFriends (RT:=asciiRuntime) noFaults 2
      (db (updateFriendRequest 2 100 (Some "accept") orphaned))
    = FriendsOk [].
Proof. repeat split; vm_compute; reflexivity. Qed.
